(** * Expense tracker: aggregation, submission and archival

    A shallow embedding of the business logic of the expense tracker's main
    component ([App]): the memoised aggregation ([totalSpent],
    [categoryData]), the submission handler ([handleSubmit]) with the
    classification call ([categorizeExpense], [fetchWithBackoff]), and the
    archive-and-reset handler ([handleResetAndArchive]).

    Conventions of the model.
    - JavaScript numbers are exact rationals ([Q]); [NaN] is [None] where a
      number can be one.  Equality of numbers is [Qeq] ([==]).
    - JavaScript strings are [string]s, one character per code unit below
      256.
    - An object used as a dictionary is a list of own properties in creation
      order, on top of the members it inherits from [Object.prototype]:
      reading a name gives the own property, else the inherited member,
      else [undefined]; assigning a number or a string to [__proto__]
      creates no property.  The text of an inherited function is not
      spelled out: a string made from one is kept as the member's name and
      the numbers appended to it.
    - Remote calls (classification service, document store) take their
      outcome from an environment [Env]; the store itself is part of the
      state, so that what a handler did to it can be inspected. *)

From Stdlib Require Import ZArith QArith Lqa Lia.
From Stdlib Require Import List String Ascii Bool Arith.
From Stdlib Require Import Permutation Sorted.
Import ListNotations.

Local Open Scope Q_scope.

(* ===================================================================== *)
(** ** JavaScript built-ins used by the component *)
(* ===================================================================== *)

Module JS.

(** *** Strings *)

Definition code (c : ascii) : N := N_of_ascii c.

(** [0-9] *)
Definition is_digit (c : ascii) : bool :=
  ((48 <=? code c) && (code c <=? 57))%N.

Definition digit_value (c : ascii) : Z := Z.of_N (code c) - 48.

(** WhiteSpace and LineTerminator code units below 256:
    TAB, LF, VT, FF, CR, SP, NBSP. *)
Definition is_white_space (c : ascii) : bool :=
  (((9 <=? code c) && (code c <=? 13)) || (code c =? 32) || (code c =? 160))%N.

Fixpoint trimStart (s : string) : string :=
  match s with
  | EmptyString => EmptyString
  | String c r => if is_white_space c then trimStart r else s
  end.

Fixpoint trimEnd (s : string) : string :=
  match s with
  | EmptyString => EmptyString
  | String c r =>
      match trimEnd r with
      | EmptyString => if is_white_space c then EmptyString else String c EmptyString
      | r' => String c r'
      end
  end.

(** [String.prototype.trim] *)
Definition trim (s : string) : string := trimEnd (trimStart s).

(** A string is falsy exactly when it is empty. *)
Definition truthy (s : string) : bool :=
  match s with EmptyString => false | _ => true end.

(** [s.replace(/[^0-9.]/g, '')]: every character other than a digit or
    a dot is removed. *)
Fixpoint strip_non_numeric (s : string) : string :=
  match s with
  | EmptyString => EmptyString
  | String c r =>
      if is_digit c || Ascii.eqb c "."
      then String c (strip_non_numeric r)
      else strip_non_numeric r
  end.

(** Longest prefix of digits, as their values, and what follows. *)
Fixpoint span_digits (s : string) : list Z * string :=
  match s with
  | String c r =>
      if is_digit c
      then let (ds, rest) := span_digits r in (digit_value c :: ds, rest)
      else ([], s)
  | EmptyString => ([], EmptyString)
  end.

Definition digits_value (ds : list Z) : Z :=
  fold_left (fun acc d => 10 * acc + d)%Z ds 0%Z.

(** [parseFloat] on a string of digits and dots (what
    [strip_non_numeric] leaves): the longest prefix of the form
    [digits], [digits.], [digits.digits] or [.digits] is read as a
    decimal; without such a prefix the result is [NaN] ([None]).
    Signs, exponents, leading blanks and [Infinity] cannot occur in
    such a string and are not handled. *)
Definition parseFloat (s : string) : option Q :=
  let (ip, rest) := span_digits s in
  let fp := match rest with
            | String "." r => fst (span_digits r)
            | _ => []
            end in
  match ip, fp with
  | [], [] => None
  | _, _ =>
      Some (inject_Z (digits_value ip)
            + inject_Z (digits_value fp) / inject_Z (10 ^ Z.of_nat (List.length fp)))
  end.

(** [x || d] for a string that may be [undefined]. *)
Definition string_or (x : option string) (d : string) : string :=
  match x with
  | Some s => if truthy s then s else d
  | None => d
  end.

(** *** Arrays *)

Section Sort.
Context {A : Type}.

(** The comparator returns a number: negative puts its first argument
    first, positive its second, zero keeps the order they had. *)
Variable cmp : A -> A -> Q.

Fixpoint insert (x : A) (l : list A) : list A :=
  match l with
  | [] => [x]
  | y :: l' =>
      if Qle_bool (cmp x y) 0 then x :: l else y :: insert x l'
  end.

(** [Array.prototype.sort] with a comparator: a stable sort.  With a
    comparator that is not a consistent order the result is left to the
    implementation; insertion from the right is one it may give. *)
Definition Array_sort (l : list A) : list A :=
  fold_right insert [] l.
End Sort.

(** [arr.reduce(f, init)] *)
Definition reduce {A B : Type} (f : B -> A -> B) (init : B) (l : list A) : B :=
  fold_left f l init.

(** *** Objects used as dictionaries *)

Section Obj.
Context {V : Type}.

(** Own properties, in creation order. *)
Definition Obj := list (string * V).

(** The own property of that name, if there is one. *)
Fixpoint own (o : Obj) (k : string) : option V :=
  match o with
  | [] => None
  | (k', v) :: o' => if String.eqb k' k then Some v else own o' k
  end.

(** The own property [k] is given the value [v]: an existing property
    keeps its place, a new one goes last. *)
Fixpoint define (o : Obj) (k : string) (v : V) : Obj :=
  match o with
  | [] => [(k, v)]
  | (k', v') :: o' =>
      if String.eqb k' k then (k', v) :: o' else (k', v') :: define o' k v
  end.
End Obj.
Arguments Obj : clear implicits.

(** The names an object literal inherits from [Object.prototype]. *)
Definition prototype_members : list string :=
  ["constructor"; "__defineGetter__"; "__defineSetter__"; "hasOwnProperty";
   "__lookupGetter__"; "__lookupSetter__"; "isPrototypeOf";
   "propertyIsEnumerable"; "toString"; "valueOf"; "__proto__";
   "toLocaleString"]%string.

Definition inherited (k : string) : bool :=
  existsb (String.eqb k) prototype_members.

(** What reading a property of a dictionary of numbers can give, and what
    [+] makes of it. *)
Inductive Value : Type :=
| Undefined
| NaN
| Num (q : Q)
| Member (k : string)
    (* [Object.prototype[k]]: a function, or the prototype itself *)
| Str (k : string) (appended : list Q).
    (* the text of [Object.prototype[k]] followed by the decimal forms of
       the numbers, in that order *)

(** [o[k]] for an object literal [o]. *)
Definition get (o : Obj Value) (k : string) : Value :=
  match own o k with
  | Some v => v
  | None => if inherited k then Member k else Undefined
  end.

(** [o[k] = v] for an object literal [o] and a value [v] that is not an
    object: the setter of [__proto__] ignores such a value, every other
    name becomes (or stays) an own property. *)
Definition set (o : Obj Value) (k : string) (v : Value) : Obj Value :=
  if String.eqb k "__proto__" then o else define o k v.

(** [v || 0]: a function, an object and a string that is not empty are
    truthy; [undefined], [NaN] and [0] are not. *)
Definition or_zero (v : Value) : Value :=
  match v with
  | Undefined | NaN => Num 0
  | Num q => if Qeq_bool q 0 then Num 0 else v
  | Member _ | Str _ _ => v
  end.

(** [v + a] for a number [a]: a function or an object is turned into its
    text first, and a text is extended by the decimal form of [a]. *)
Definition plus (v : Value) (a : Q) : Value :=
  match v with
  | Undefined | NaN => NaN
  | Num q => Num (q + a)
  | Member k => Str k [a]
  | Str k l => Str k (l ++ [a])
  end.

(** [ToNumber(v)], [None] for [NaN]: the text of a member of
    [Object.prototype] is not a numeric literal, whatever is appended. *)
Definition toNumber (v : Value) : option Q :=
  match v with
  | Num q => Some q
  | Undefined | NaN | Member _ | Str _ _ => None
  end.

(** [b - a] *)
Definition minus (b a : Value) : option Q :=
  match toNumber b, toNumber a with
  | Some y, Some x => Some (y - x)
  | _, _ => None
  end.

(** What [Array.prototype.sort] makes of the number a comparator
    returns: [NaN] counts as [+0]. *)
Definition sort_order (v : option Q) : Q :=
  match v with Some q => q | None => 0 end.

Fixpoint all_digits (s : string) : bool :=
  match s with
  | EmptyString => true
  | String c r => is_digit c && all_digits r
  end.

(** An array index: the canonical decimal form of an integer below
    [2^32 - 1]. *)
Definition array_index (s : string) : option N :=
  match s with
  | EmptyString => None
  | String c r =>
      if all_digits s && (negb (Ascii.eqb c "0") || String.eqb r EmptyString)
      then let v := Z.to_N (digits_value (fst (span_digits s))) in
           if (v <? 4294967295)%N then Some v else None
      else None
  end.

Definition is_array_index (s : string) : bool :=
  match array_index s with Some _ => true | None => false end.

Definition index_of (s : string) : Z :=
  match array_index s with Some n => Z.of_N n | None => 0%Z end.

(** [Object.keys(o)]: array indices in ascending numeric order, then
    the other names in creation order. *)
Definition Object_keys {V : Type} (o : Obj V) : list string :=
  let ks := map fst o in
  Array_sort (fun a b => inject_Z (index_of a - index_of b))
             (filter is_array_index ks)
    ++ filter (fun k => negb (is_array_index k)) ks.

End JS.

(* ===================================================================== *)
(** ** Data model *)
(* ===================================================================== *)

(** An element of the [expenses] state: a stored document with its id, its
    category defaulted and its date resolved. *)
Record Expense : Type := mkExpense {
  id : string;
  amount : Q;
  description : string;
  category : option string;
  classification : option string;
  date : Z
}.

(** An element of [categoryData]. *)
Record CategorySummaryEntry : Type := mkEntry {
  entry_category : string;
  total : JS.Value;
  percentage : option Q         (* [None]: [NaN] *)
}.

(* ===================================================================== *)
(** ** Aggregation: the memoised [totalSpent] and [categoryData] *)
(* ===================================================================== *)

Module Aggregation.

Definition NoCategorizado : string := "No Categorizado".

(** [expenses.reduce((sum, expense) => sum + expense.amount, 0)] *)
Definition total_of (expenses : list Expense) : Q :=
  JS.reduce (fun sum expense => sum + amount expense) 0 expenses.

(** [expense.category || 'No Categorizado'] *)
Definition category_of (expense : Expense) : string :=
  JS.string_or (category expense) NoCategorizado.

(** The reducer that builds [totals], starting from [{}]:
    [acc[category] = (acc[category] || 0) + expense.amount]. *)
Definition add_to_totals (acc : JS.Obj JS.Value) (expense : Expense)
  : JS.Obj JS.Value :=
  let category := category_of expense in
  JS.set acc category
         (JS.plus (JS.or_zero (JS.get acc category)) (amount expense)).

Definition totals_of (expenses : list Expense) : JS.Obj JS.Value :=
  JS.reduce add_to_totals [] expenses.

(** [total > 0 ? (totals[category] / total) * 100 : 0] *)
Definition percentage_of (total : Q) (v : JS.Value) : option Q :=
  if Qlt_le_dec 0 total
  then option_map (fun q => (q / total) * 100) (JS.toNumber v)
  else Some 0.

Definition data_of (total : Q) (totals : JS.Obj JS.Value)
  : list CategorySummaryEntry :=
  map (fun category =>
         {| entry_category := category;
            total := JS.get totals category;
            percentage := percentage_of total (JS.get totals category) |})
      (JS.Object_keys totals).

(** [(a, b) => b.total - a.total], as the sort reads it. *)
Definition by_total_desc (a b : CategorySummaryEntry) : Q :=
  JS.sort_order (JS.minus (total b) (total a)).

Definition useMemo (expenses : list Expense) : Q * list CategorySummaryEntry :=
  let total := total_of expenses in
  let totals := totals_of expenses in
  let data := data_of total totals in
  (total, JS.Array_sort by_total_desc data).

Definition totalSpent (expenses : list Expense) : Q := fst (useMemo expenses).
Definition categoryData (expenses : list Expense) : list CategorySummaryEntry :=
  snd (useMemo expenses).

End Aggregation.

(* ===================================================================== *)
(** ** Documents, interface state and the environment *)
(* ===================================================================== *)

(** A document of the [expenses] collection. *)
Module Doc.
Record t : Type := mk {
  amount : Q;
  description : string;
  category : option string;
  classification : option string;
  timestamp : option Z
}.
End Doc.

(** The [updatedFields] of an edit: [category] and [classification] are
    present only after a reclassification. *)
Module Fields.
Record t : Type := mk {
  amount : Q;
  description : string;
  labels : option (option string * option string)
}.

(** [updateDoc] merges the given fields into the document. *)
Definition merge (f : t) (d : Doc.t) : Doc.t :=
  {| Doc.amount := amount f;
     Doc.description := description f;
     Doc.category := match labels f with
                     | Some (c, _) => c
                     | None => Doc.category d
                     end;
     Doc.classification := match labels f with
                           | Some (_, c) => c
                           | None => Doc.classification d
                           end;
     Doc.timestamp := Doc.timestamp d |}.
End Fields.

(** A document of the [history] collection ([archiveData]). *)
Module Archive.
Record t : Type := mk {
  title : string;
  totalSpent : Q;
  categorySummary : list CategorySummaryEntry;
  archiveDate : Z;
  totalExpensesCount : nat
}.
End Archive.

(** The two collections of the signed-in user. *)
Record Backend : Type := mkBackend {
  expensesCol : list (string * Doc.t);
  historyCol : list (string * Archive.t)
}.

(** The component's state variables that the handlers read or set. *)
Module UI.
Record t : Type := mk {
  db : bool;
  userId : option string;
  expenses : list Expense;
  amount : string;
  description : string;
  isLoading : bool;
  error : option string;
  isArchiving : bool;
  isEditing : bool;
  editingExpenseId : option string;
  editingOriginalDescription : string
}.

Definition setAmount (v : string) (u : t) : t :=
  mk (db u) (userId u) (expenses u) v (description u) (isLoading u) (error u)
     (isArchiving u) (isEditing u) (editingExpenseId u)
     (editingOriginalDescription u).
Definition setDescription (v : string) (u : t) : t :=
  mk (db u) (userId u) (expenses u) (amount u) v (isLoading u) (error u)
     (isArchiving u) (isEditing u) (editingExpenseId u)
     (editingOriginalDescription u).
Definition setIsLoading (v : bool) (u : t) : t :=
  mk (db u) (userId u) (expenses u) (amount u) (description u) v (error u)
     (isArchiving u) (isEditing u) (editingExpenseId u)
     (editingOriginalDescription u).
Definition setError (v : option string) (u : t) : t :=
  mk (db u) (userId u) (expenses u) (amount u) (description u) (isLoading u) v
     (isArchiving u) (isEditing u) (editingExpenseId u)
     (editingOriginalDescription u).
Definition setIsArchiving (v : bool) (u : t) : t :=
  mk (db u) (userId u) (expenses u) (amount u) (description u) (isLoading u)
     (error u) v (isEditing u) (editingExpenseId u)
     (editingOriginalDescription u).
Definition setIsEditing (v : bool) (u : t) : t :=
  mk (db u) (userId u) (expenses u) (amount u) (description u) (isLoading u)
     (error u) (isArchiving u) v (editingExpenseId u)
     (editingOriginalDescription u).
Definition setEditingExpenseId (v : option string) (u : t) : t :=
  mk (db u) (userId u) (expenses u) (amount u) (description u) (isLoading u)
     (error u) (isArchiving u) (isEditing u) v
     (editingOriginalDescription u).
Definition setEditingOriginalDescription (v : string) (u : t) : t :=
  mk (db u) (userId u) (expenses u) (amount u) (description u) (isLoading u)
     (error u) (isArchiving u) (isEditing u) (editingExpenseId u) v.

(** [!db || !userId] is false. *)
Definition ready (u : t) : bool :=
  db u && match userId u with Some i => JS.truthy i | None => false end.
End UI.

(** What one [fetch] of the classification endpoint gives. *)
Module Http.
(** The body of a response as [categorizeExpense] looks at it: [null],
    or a value with (or without) a text at
    [candidates[0].content.parts[0].text]. *)
Inductive Body : Type :=
| BNull
| BValue (text : option string).

Inductive Result : Type :=
| NetworkError
| Response (ok : bool) (json : option Body).
End Http.

(** The value of [JSON.parse(jsonText)] as [handleSubmit] destructures it:
    [null], or a value with (or without) string members [category] and
    [classification]. *)
Inductive Parsed : Type :=
| PNull
| PValue (category classification : option string).

Inductive Exn : Type :=
| HttpError          (* response.ok is false *)
| FetchError         (* fetch rejected *)
| SyntaxError        (* response.json() or JSON.parse *)
| TypeError          (* member of null *)
| EmptyResponse      (* "Respuesta de la API vacia o no estructurada." *)
| StoreError.        (* a rejected call of the document store *)

(** Remote calls and prompts, in the order they are issued. *)
Inductive Event : Type :=
| EvClassify (text : string)
| EvFetch
| EvDelay (ms : nat)
| EvAddExpense (d : Doc.t)
| EvUpdateExpense (id : option string) (f : Fields.t)
| EvConfirm
| EvAddHistory (r : Archive.t)
| EvGetDocs
| EvDeleteExpense (id : string).

(** A [deleteDoc] that has been issued: the tick at which it settles and
    whether it succeeds. *)
Record Pending : Type := mkPending {
  target : string;
  settles_at : nat;
  succeeds : bool
}.

(** Outcomes of the calls a handler makes. *)
Record Env : Type := mkEnv {
  now : Z;                               (* Timestamp.now(), new Date() *)
  currentMonth : string;                 (* toLocaleString('es-AR', ...) *)
  Number_toString : Q -> string;
  confirm : bool;                        (* window.confirm *)
  fetch_outcome : nat -> Http.Result;    (* the n-th fetch, from 0 *)
  JSON_parse : string -> option Parsed;  (* None: SyntaxError *)
  addDoc_expense_outcome : option string;  (* the new id, or a rejection *)
  updateDoc_ok : bool;
  addDoc_history_outcome : option string;
  getDocs_ok : bool;
  deleteDoc_outcome : string -> bool * nat   (* success, ticks to settle *)
}.

Record World : Type := mkWorld {
  ui : UI.t;
  store : Backend;
  trace : list Event;
  fetches : nat;
  clock : nat;
  in_flight : list Pending
}.

(* ===================================================================== *)
(** ** Asynchronous code: state, rejection, [try]/[catch]/[finally] *)
(* ===================================================================== *)

Module Async.

Inductive Outcome (A : Type) : Type :=
| Fulfilled (a : A)
| Rejected (e : Exn).
Arguments Fulfilled {A} a.
Arguments Rejected {A} e.

(** An awaited computation: it changes the world and returns or throws. *)
Definition M (A : Type) : Type := World -> Outcome A * World.

Definition ret {A : Type} (a : A) : M A := fun w => (Fulfilled a, w).

Definition throw {A : Type} (e : Exn) : M A := fun w => (Rejected e, w).

Definition bind {A B : Type} (m : M A) (k : A -> M B) : M B :=
  fun w =>
    match m w with
    | (Fulfilled a, w') => k a w'
    | (Rejected e, w') => (Rejected e, w')
    end.

(** [try { body } catch (e) { handler }] *)
Definition try_catch {A : Type} (body : M A) (handler : Exn -> M A) : M A :=
  fun w =>
    match body w with
    | (Fulfilled a, w') => (Fulfilled a, w')
    | (Rejected e, w') => handler e w'
    end.

(** [try { body } catch (e) { handler } finally { fin }] *)
Definition try_catch_finally {A : Type}
           (body : M A) (handler : Exn -> M A) (fin : M unit) : M A :=
  fun w =>
    let (r, w1) := try_catch body handler w in
    match fin w1 with
    | (Fulfilled _, w2) => (r, w2)
    | (Rejected e, w2) => (Rejected e, w2)
    end.

Definition setState (f : UI.t -> UI.t) : M unit :=
  fun w => (Fulfilled tt,
            mkWorld (f (ui w)) (store w) (trace w) (fetches w) (clock w)
                    (in_flight w)).

Definition log (ev : Event) : M unit :=
  fun w => (Fulfilled tt,
            mkWorld (ui w) (store w) (trace w ++ [ev]) (fetches w) (clock w)
                    (in_flight w)).

Definition setStore (f : Backend -> Backend) : M unit :=
  fun w => (Fulfilled tt,
            mkWorld (ui w) (f (store w)) (trace w) (fetches w) (clock w)
                    (in_flight w)).

Definition getStore : M Backend := fun w => (Fulfilled (store w), w).

End Async.

Import Async.

Declare Scope async_scope.
Delimit Scope async_scope with async.
Notation "x <- m ;; k" := (bind m (fun x => k))
  (at level 61, m at next level, right associativity) : async_scope.
Notation "m ;; k" := (bind m (fun _ => k))
  (at level 61, right associativity) : async_scope.
Local Open Scope async_scope.

(* ===================================================================== *)
(** ** The document store and the network *)
(* ===================================================================== *)

Module Remote.

(** [fetch(url, options)]: the next outcome the environment has. *)
Definition fetch (env : Env) : M (bool * option Http.Body) :=
  fun w =>
    let w' := mkWorld (ui w) (store w) (trace w ++ [EvFetch])
                      (S (fetches w)) (clock w) (in_flight w) in
    match fetch_outcome env (fetches w) with
    | Http.NetworkError => (Rejected FetchError, w')
    | Http.Response ok json => (Fulfilled (ok, json), w')
    end.

(** [new Promise(res => setTimeout(res, delay))] *)
Definition sleep (delay : nat) : M unit := log (EvDelay delay).

(** [addDoc(collection(db, expensesCollectionPath), newExpense)] *)
Definition addDoc_expenses (env : Env) (d : Doc.t) : M string :=
  log (EvAddExpense d) ;;
  match addDoc_expense_outcome env with
  | Some i =>
      setStore (fun b => mkBackend (expensesCol b ++ [(i, d)]) (historyCol b)) ;;
      ret i
  | None => throw StoreError
  end.

Definition has_doc (i : string) (b : Backend) : bool :=
  existsb (fun p => String.eqb (fst p) i) (expensesCol b).

(** [updateDoc(expenseRef, updatedFields)]: the document must exist. *)
Definition updateDoc (env : Env) (i : option string) (f : Fields.t) : M unit :=
  log (EvUpdateExpense i f) ;;
  b <- getStore ;;
  match i with
  | Some i' =>
      if updateDoc_ok env && has_doc i' b
      then setStore (fun b =>
             mkBackend
               (map (fun p => if String.eqb (fst p) i'
                              then (fst p, Fields.merge f (snd p)) else p)
                    (expensesCol b))
               (historyCol b))
      else throw StoreError
  | None => throw StoreError
  end.

(** [addDoc(collection(db, historyCollectionPath), archiveData)] *)
Definition addDoc_history (env : Env) (r : Archive.t) : M string :=
  log (EvAddHistory r) ;;
  match addDoc_history_outcome env with
  | Some i =>
      setStore (fun b => mkBackend (expensesCol b) (historyCol b ++ [(i, r)])) ;;
      ret i
  | None => throw StoreError
  end.

(** [getDocs(query(collection(db, expensesCollectionPath)))] *)
Definition getDocs (env : Env) : M (list (string * Doc.t)) :=
  log EvGetDocs ;;
  if getDocs_ok env
  then b <- getStore ;; ret (expensesCol b)
  else throw StoreError.

(** [deleteDoc(ref)], not awaited: the request is issued and its promise
    returned. *)
Definition promise_of (env : Env) (issued : nat) (i : string) : Pending :=
  mkPending i (issued + snd (deleteDoc_outcome env i))
            (fst (deleteDoc_outcome env i)).

Definition deleteDoc (env : Env) (i : string) : M Pending :=
  fun w =>
    let p := promise_of env (clock w) i in
    (Fulfilled p,
     mkWorld (ui w) (store w) (trace w ++ [EvDeleteExpense i]) (fetches w)
             (clock w) (in_flight w ++ [p])).

Definition remove_doc (i : string) (b : Backend) : Backend :=
  mkBackend (filter (fun p => negb (String.eqb (fst p) i)) (expensesCol b))
            (historyCol b).

(** The store once a request has settled. *)
Definition settle (p : Pending) (b : Backend) : Backend :=
  if succeeds p then remove_doc (target p) b else b.

(** Time passes up to tick [t]: the requests due by then settle. *)
Definition advance (t : nat) (w : World) : World :=
  let due := filter (fun p => settles_at p <=? t)%nat (in_flight w) in
  let later := filter (fun p => negb (settles_at p <=? t)%nat) (in_flight w) in
  mkWorld (ui w) (fold_left (fun b p => settle p b) due (store w)) (trace w)
          (fetches w) (Nat.max (clock w) t) later.

(** The tick of the first rejection among the promises, if any. *)
Fixpoint first_rejection (ps : list Pending) : option nat :=
  match ps with
  | [] => None
  | p :: ps' =>
      match first_rejection ps' with
      | Some t => Some (if succeeds p then t else Nat.min (settles_at p) t)
      | None => if succeeds p then None else Some (settles_at p)
      end
  end.

(** The tick by which every promise has settled. *)
Definition last_settlement (ps : list Pending) : nat :=
  fold_right (fun p t => Nat.max (settles_at p) t) 0%nat ps.

(** [await Promise.all(promises)]: rejected as soon as one promise is,
    fulfilled once all are. *)
Definition Promise_all (ps : list Pending) : M unit :=
  fun w =>
    match first_rejection ps with
    | Some t => (Rejected StoreError, advance t w)
    | None => (Fulfilled tt, advance (last_settlement ps) w)
    end.

(** [await promise] for one request: time passes until it settles. *)
Definition await (p : Pending) : M unit :=
  fun w =>
    (if succeeds p then Fulfilled tt else Rejected StoreError,
     advance (settles_at p) w).

(** Everything still in flight settles. *)
Definition quiesce (w : World) : World :=
  advance (last_settlement (in_flight w)) w.

End Remote.

(* ===================================================================== *)
(** ** The component's handlers *)
(* ===================================================================== *)

Module App.

(** What the listener of the expenses collection passes to
    [setExpenses] for a snapshot: newest first. *)
Definition fetchedExpenses (env : Env) (docs : list (string * Doc.t))
  : list Expense :=
  JS.Array_sort
    (fun a b => inject_Z (date b - date a))
    (map (fun doc =>
            {| id := fst doc;
               amount := Doc.amount (snd doc);
               description := Doc.description (snd doc);
               category :=
                 Some (JS.string_or (Doc.category (snd doc))
                                    Aggregation.NoCategorizado);
               classification := Doc.classification (snd doc);
               date := match Doc.timestamp (snd doc) with
                       | Some t => t
                       | None => now env
                       end |})
         docs).

(** [fetchWithBackoff(url, options, retries, delay)] *)
Fixpoint fetchWithBackoff (env : Env) (retries delay : nat) : M Http.Body :=
  try_catch
    (response <- Remote.fetch env ;;
     if negb (fst response) then throw HttpError
     else match snd response with
          | Some json => ret json
          | None => throw SyntaxError
          end)
    (fun error =>
       match retries with
       | S retries' =>
           Remote.sleep delay ;;
           fetchWithBackoff env retries' (delay * 2)
       | O => throw error
       end).

Definition fallback : Parsed :=
  PValue (Some "No Categorizado"%string) (Some "Manual"%string).

(** [categorizeExpense(text)] *)
Definition categorizeExpense (env : Env) (text : string) : M Parsed :=
  log (EvClassify text) ;;
  try_catch
    (result <- fetchWithBackoff env 3 1000 ;;
     match result with
     | Http.BNull => throw TypeError
     | Http.BValue jsonText =>
         match jsonText with
         | Some t =>
             if JS.truthy t
             then match JSON_parse env t with
                  | Some v => ret v
                  | None => throw SyntaxError
                  end
             else throw EmptyResponse
         | None => throw EmptyResponse
         end
     end)
    (fun e => ret fallback).

(** [const { category, classification } = value] *)
Definition destructure (v : Parsed) : M (option string * option string) :=
  match v with
  | PNull => throw TypeError
  | PValue category classification => ret (category, classification)
  end.

Definition handleCancelEdit : M unit :=
  setState (UI.setIsEditing false) ;;
  setState (UI.setEditingExpenseId None) ;;
  setState (UI.setAmount EmptyString) ;;
  setState (UI.setDescription EmptyString) ;;
  setState (UI.setEditingOriginalDescription EmptyString) ;;
  setState (UI.setError None).

Definition handleEditClick (env : Env) (expense : Expense) : M unit :=
  setState (UI.setError None) ;;
  setState (UI.setIsEditing true) ;;
  setState (UI.setEditingExpenseId (Some (id expense))) ;;
  setState (UI.setAmount (Number_toString env (amount expense))) ;;
  setState (UI.setDescription (description expense)) ;;
  setState (UI.setEditingOriginalDescription (description expense)).

Definition msg_invalid : string :=
  "Por favor, introduce un monto válido y una descripción.".
Definition msg_not_ready : string :=
  "La aplicación no está lista aún. Por favor, espera un momento.".
Definition msg_process : string :=
  "Error al procesar el gasto. Intenta nuevamente.".
Definition msg_archive : string :=
  "Error al archivar/reiniciar. Consulta la consola para más detalles.".

(** [handleSubmit(e)], run with the state [st] of the render it was
    created in.  [!numericAmount] holds for [NaN] and for zero. *)
Definition handleSubmit (env : Env) (st : UI.t) : M unit :=
  let description := UI.description st in
  match JS.parseFloat (JS.strip_non_numeric (UI.amount st)) with
  | None => setState (UI.setError (Some msg_invalid))
  | Some numericAmount =>
      if Qeq_bool numericAmount 0 || Qle_bool numericAmount 0
         || negb (JS.truthy (JS.trim description))
      then setState (UI.setError (Some msg_invalid))
      else if negb (UI.ready st)
      then setState (UI.setError (Some msg_not_ready))
      else
        setState (UI.setIsLoading true) ;;
        setState (UI.setError None) ;;
        try_catch_finally
          (if UI.isEditing st
           then
             let updatedFields :=
               Fields.mk numericAmount (JS.trim description) None in
             updatedFields <-
               (if negb (String.eqb (JS.trim description)
                                    (UI.editingOriginalDescription st))
                then
                  v <- categorizeExpense env description ;;
                  labels <- destructure v ;;
                  ret (Fields.mk (Fields.amount updatedFields)
                                 (Fields.description updatedFields)
                                 (Some labels))
                else ret updatedFields) ;;
             Remote.updateDoc env (UI.editingExpenseId st) updatedFields ;;
             handleCancelEdit
           else
             v <- categorizeExpense env description ;;
             labels <- destructure v ;;
             let newExpense :=
               {| Doc.amount := numericAmount;
                  Doc.description := JS.trim description;
                  Doc.category := fst labels;
                  Doc.classification := snd labels;
                  Doc.timestamp := Some (now env) |} in
             Remote.addDoc_expenses env newExpense ;;
             setState (UI.setAmount EmptyString) ;;
             setState (UI.setDescription EmptyString))
          (fun e => setState (UI.setError (Some msg_process)))
          (setState (UI.setIsLoading false))
  end.

(** [snapshot.docs.map(doc => deleteDoc(doc.ref))] *)
Fixpoint deletePromises (env : Env) (docs : list (string * Doc.t))
  : M (list Pending) :=
  match docs with
  | [] => ret []
  | doc :: docs' =>
      p <- Remote.deleteDoc env (fst doc) ;;
      ps <- deletePromises env docs' ;;
      ret (p :: ps)
  end.

Definition archiveData (env : Env) (st : UI.t) : Archive.t :=
  {| Archive.title := ("Resumen de Gastos: " ++ currentMonth env)%string;
     Archive.totalSpent := Aggregation.totalSpent (UI.expenses st);
     Archive.categorySummary :=
       map (fun item =>
              {| entry_category := entry_category item;
                 total := total item;
                 percentage := percentage item |})
           (Aggregation.categoryData (UI.expenses st));
     Archive.archiveDate := now env;
     Archive.totalExpensesCount := List.length (UI.expenses st) |}.

(** [handleResetAndArchive()], run with the state [st] of the render it
    was created in. *)
Definition handleResetAndArchive (env : Env) (st : UI.t) : M unit :=
  if negb (UI.ready st) || (List.length (UI.expenses st) =? 0)%nat
  then ret tt
  else
    log EvConfirm ;;
    if negb (confirm env) then ret tt
    else
      setState (UI.setIsArchiving true) ;;
      setState (UI.setError None) ;;
      try_catch_finally
        (Remote.addDoc_history env (archiveData env st) ;;
         snapshot <- Remote.getDocs env ;;
         promises <- deletePromises env snapshot ;;
         Remote.Promise_all promises)
        (fun e => setState (UI.setError (Some msg_archive)))
        (setState (UI.setIsArchiving false)).

Definition msg_delete_not_ready : string :=
  "La aplicación no está lista o el usuario no está autenticado.".
Definition msg_delete : string :=
  "No se pudo eliminar el gasto. Intenta de nuevo.".

(** [handleDeleteExpense(expenseId)], run with the state [st] of the
    render it was created in. *)
Definition handleDeleteExpense (env : Env) (expenseId : string) (st : UI.t)
  : M unit :=
  if negb (UI.ready st)
  then setState (UI.setError (Some msg_delete_not_ready))
  else
    try_catch
      (p <- Remote.deleteDoc env expenseId ;;
       Remote.await p ;;
       match UI.editingExpenseId st with
       | Some editingExpenseId =>
           if String.eqb editingExpenseId expenseId
           then handleCancelEdit
           else ret tt
       | None => ret tt
       end)
      (fun e => setState (UI.setError (Some msg_delete))).

(** A handler runs against the state of the current render. *)
Definition run (h : UI.t -> M unit) (w : World) : World := snd (h (ui w) w).

End App.

(* ===================================================================== *)
(** ** The expense service ([firestoreService.js]) *)
(* ===================================================================== *)

Module Service.

(** The [expenseData] of the caller. *)
Record ExpenseData : Type := mkData {
  userId : option string;
  description : string;
  amount : Q;
  category : string
}.

(** A document of the root [expenses] collection: the caller's data and
    the creation date set by the server. *)
Record Stored : Type := mkStored {
  data : ExpenseData;
  date : Z
}.

Definition Collection : Type := list (string * Stored).

(** Outcomes of the calls to the store. *)
Record Env : Type := mkEnv {
  addDoc_outcome : option string;     (* the new id, or a rejection *)
  position : nat;   (* where the store lists the new document among
                       the others: no order is asked of it *)
  getDocs_ok : bool;
  serverTimestamp : Z
}.

Inductive Result (A : Type) : Type :=
| Returned (a : A)
| Thrown (message : string).
Arguments Returned {A} a.
Arguments Thrown {A} message.

(** [addExpense(expenseData)] *)
Definition addExpense (env : Env) (expenseData : ExpenseData) (col : Collection)
  : Result string * Collection :=
  match addDoc_outcome env with
  | Some docRef =>
      (Returned docRef,
       firstn (position env) col
         ++ (docRef, mkStored expenseData (serverTimestamp env))
         :: skipn (position env) col)
  | None => (Thrown "Could not add expense.", col)
  end.

(** [where("userId", "==", userId)] *)
Definition owned_by (userId' : string) (doc : string * Stored) : bool :=
  match userId (data (snd doc)) with
  | Some u => String.eqb u userId'
  | None => false
  end.

(** [getExpenses(userId)]: each element is a document with its id. *)
Definition getExpenses (env : Env) (userId : option string) (col : Collection)
  : Result (list (string * Stored)) :=
  match userId with
  | Some u =>
      if JS.truthy u
      then if getDocs_ok env
           then Returned (filter (owned_by u) col)
           else Thrown "Could not fetch expenses."
      else Thrown "User ID is required to fetch expenses."
  | None => Thrown "User ID is required to fetch expenses."
  end.

End Service.

(* ===================================================================== *)
(** ** Vocabulary of the statements *)
(* ===================================================================== *)

Definition is_classify (ev : Event) : bool :=
  match ev with EvClassify _ => true | _ => false end.

(** The number of classification calls in a trace. *)
Definition classify_calls (evs : list Event) : nat :=
  List.length (filter is_classify evs).

(** Traffic with the classification endpoint. *)
Definition is_network (ev : Event) : bool :=
  match ev with EvFetch | EvDelay _ => true | _ => false end.

(** Writes to the document store. *)
Definition is_write (ev : Event) : bool :=
  match ev with
  | EvAddExpense _ | EvUpdateExpense _ _ | EvAddHistory _
  | EvDeleteExpense _ => true
  | _ => false
  end.

Definition is_delete (ev : Event) : bool :=
  match ev with EvDeleteExpense _ => true | _ => false end.

(** The amount a write of an expense carries. *)
Definition written_amount (ev : Event) : option Q :=
  match ev with
  | EvAddExpense d => Some (Doc.amount d)
  | EvUpdateExpense _ f => Some (Fields.amount f)
  | _ => None
  end.

(** One attempt gives nothing to read: the request failed, the status is
    not 2xx, or the body is not JSON. *)
Definition attempt_fails (r : Http.Result) : bool :=
  match r with
  | Http.NetworkError => true
  | Http.Response ok json =>
      negb ok || match json with None => true | Some _ => false end
  end.

(** The interface state while a submission is being processed, and after
    it has failed. *)
Definition loading (u : UI.t) : UI.t :=
  UI.setError None (UI.setIsLoading true u).
Definition failed (u : UI.t) : UI.t :=
  UI.setIsLoading false (UI.setError (Some App.msg_process) (loading u)).

(** The world after the user has typed into the two fields. *)
Definition typed (amount description : string) (w : World) : World :=
  mkWorld (UI.setDescription description (UI.setAmount amount (ui w)))
          (store w) (trace w) (fetches w) (clock w) (in_flight w).

(** The amounts spent under one label. *)
Definition group_total (label : string) (expenses : list Expense) : Q :=
  fold_right Qplus 0
    (map amount
       (filter (fun e => String.eqb (Aggregation.category_of e) label) expenses)).

(** The amounts spent under one label, in the order of the list. *)
Definition group_amounts (label : string) (expenses : list Expense) : list Q :=
  map amount
      (filter (fun e => String.eqb (Aggregation.category_of e) label) expenses).

(** No expense of the list is filed under the name of a member of
    [Object.prototype]. *)
Definition ordinary_labels (expenses : list Expense) : Prop :=
  Forall (fun e => JS.inherited (Aggregation.category_of e) = false) expenses.

(** The number a total is, and 0 for one that is not a number. *)
Definition number (v : JS.Value) : Q :=
  match v with JS.Num q => q | _ => 0 end.

(** The number a percentage is, and 0 for [NaN]. *)
Definition percent (p : option Q) : Q :=
  match p with Some q => q | None => 0 end.

(** Two entries in descending order of total; a total that is not a
    number is not compared. *)
Definition descending (a b : CategorySummaryEntry) : Prop :=
  match JS.toNumber (total a), JS.toNumber (total b) with
  | Some x, Some y => y <= x
  | _, _ => True
  end.

(** The entry's total is a number, equal to [q]. *)
Definition total_is (q : Q) (x : CategorySummaryEntry) : bool :=
  match total x with JS.Num v => Qeq_bool v q | _ => false end.

(** The leading attempts that fail, among [n] from the [start]-th on. *)
Fixpoint failed_attempts (env : Env) (start n : nat) : nat :=
  match n with
  | O => O
  | S n' =>
      if attempt_fails (fetch_outcome env start)
      then S (failed_attempts env (S start) n')
      else O
  end.

(** The traffic of a call whose first [failures] attempts fail: a pause
    after each of them, twice as long each time. *)
Fixpoint backoff_schedule (failures delay : nat) : list Event :=
  match failures with
  | O => [EvFetch]
  | S k => EvFetch :: EvDelay delay :: backoff_schedule k (delay * 2)
  end.

(** The milliseconds spent pausing. *)
Fixpoint waited (evs : list Event) : nat :=
  match evs with
  | [] => O
  | EvDelay ms :: evs' => (ms + waited evs')%nat
  | _ :: evs' => waited evs'
  end.

(** What one attempt amounts to for the caller. *)
Definition attempt_outcome (r : Http.Result) : Outcome Http.Body :=
  match r with
  | Http.NetworkError => Rejected FetchError
  | Http.Response false _ => Rejected HttpError
  | Http.Response true None => Rejected SyntaxError
  | Http.Response true (Some body) => Fulfilled body
  end.

(** The labels a classification call started at the [start]-th fetch
    comes back with. *)
Definition classification_result (env : Env) (start : nat) : Parsed :=
  match fetch_outcome env (start + failed_attempts env start 3) with
  | Http.Response true (Some (Http.BValue (Some t))) =>
      if JS.truthy t
      then match JSON_parse env t with
           | Some v => v
           | None => App.fallback
           end
      else App.fallback
  | _ => App.fallback
  end.

(** The labels of a list in the order in which each is first seen. *)
Definition first_seen (labels : list string) : list string :=
  fold_left (fun seen k => if existsb (String.eqb k) seen
                           then seen else seen ++ [k])
            labels [].

(** The label under which the screen counts a document. *)
Definition doc_label (doc : string * Doc.t) : string :=
  JS.string_or (Doc.category (snd doc)) Aggregation.NoCategorizado.

(** The date the listener gives a document. *)
Definition doc_date (env : Env) (doc : string * Doc.t) : Z :=
  match Doc.timestamp (snd doc) with
  | Some t => t
  | None => now env
  end.

(** A successful request aimed at a document. *)
Definition hits (d : string * Doc.t) (p : Pending) : bool :=
  succeeds p && String.eqb (target p) (fst d).

(** The events a submission may issue. *)
Definition is_submission_event (ev : Event) : bool :=
  match ev with
  | EvClassify _ | EvFetch | EvDelay _ | EvAddExpense _
  | EvUpdateExpense _ _ => true
  | _ => false
  end.

(** A stored expense as the data model wants it: a positive amount and a
    description that is not empty and has no blanks around it. *)
Definition well_formed (d : Doc.t) : Prop :=
  0 < Doc.amount d
  /\ Doc.description d <> EmptyString
  /\ JS.trim (Doc.description d) = Doc.description d.

(** The interface state once edit mode has been left. *)
Definition edit_closed (u : UI.t) : UI.t :=
  UI.setError None
    (UI.setEditingOriginalDescription EmptyString
       (UI.setDescription EmptyString
          (UI.setAmount EmptyString
             (UI.setEditingExpenseId None (UI.setIsEditing false u))))).

(* ===================================================================== *)
(** ** Concrete scenarios *)
(* ===================================================================== *)

Module Scenario.

Definition comida : Doc.t :=
  Doc.mk 100 "almuerzo" (Some "Comida"%string) (Some "Restaurante"%string)
         (Some 5%Z).
Definition otros : Doc.t :=
  Doc.mk 50 "regalo" (Some "Otros"%string) None (Some 7%Z).

Definition two_docs : Backend :=
  mkBackend [("a"%string, comida); ("b"%string, otros)] [].

Definition answer (t : string) : Http.Result :=
  Http.Response true (Some (Http.BValue (Some t))).

(** The service answers at once, the store accepts everything, every
    delete settles after two ticks. *)
Definition env_ok : Env :=
  {| now := 1000;
     currentMonth := "noviembre de 2026";
     Number_toString := fun _ => "100"%string;
     confirm := true;
     fetch_outcome := fun _ => answer "{...}";
     JSON_parse := fun _ => Some (PValue (Some "Comida"%string)
                                         (Some "Cafe"%string));
     addDoc_expense_outcome := Some "c"%string;
     updateDoc_ok := true;
     addDoc_history_outcome := Some "h"%string;
     getDocs_ok := true;
     deleteDoc_outcome := fun _ => (true, 2%nat) |}.

(** The service is unreachable. *)
Definition env_offline : Env :=
  {| now := 1000;
     currentMonth := "noviembre de 2026";
     Number_toString := fun _ => "100"%string;
     confirm := true;
     fetch_outcome := fun _ => Http.NetworkError;
     JSON_parse := fun _ => None;
     addDoc_expense_outcome := Some "c"%string;
     updateDoc_ok := true;
     addDoc_history_outcome := Some "h"%string;
     getDocs_ok := true;
     deleteDoc_outcome := fun _ => (true, 2%nat) |}.

(** The history collection rejects the write. *)
Definition env_history_down : Env :=
  {| now := 1000;
     currentMonth := "noviembre de 2026";
     Number_toString := fun _ => "100"%string;
     confirm := true;
     fetch_outcome := fun _ => answer "{...}";
     JSON_parse := fun _ => Some (PValue (Some "Comida"%string)
                                         (Some "Cafe"%string));
     addDoc_expense_outcome := Some "c"%string;
     updateDoc_ok := true;
     addDoc_history_outcome := None;
     getDocs_ok := true;
     deleteDoc_outcome := fun _ => (true, 2%nat) |}.

(** The delete of document "a" is rejected after one tick; the delete
    of "b" succeeds after five. *)
Definition env_partial : Env :=
  {| now := 1000;
     currentMonth := "noviembre de 2026";
     Number_toString := fun _ => "100"%string;
     confirm := true;
     fetch_outcome := fun _ => answer "{...}";
     JSON_parse := fun _ => Some (PValue (Some "Comida"%string)
                                         (Some "Cafe"%string));
     addDoc_expense_outcome := Some "c"%string;
     updateDoc_ok := true;
     addDoc_history_outcome := Some "h"%string;
     getDocs_ok := true;
     deleteDoc_outcome :=
       fun i => if String.eqb i "a" then (false, 1%nat) else (true, 5%nat) |}.

Definition idle (expenses : list Expense) : UI.t :=
  {| UI.db := true;
     UI.userId := Some "user"%string;
     UI.expenses := expenses;
     UI.amount := EmptyString;
     UI.description := EmptyString;
     UI.isLoading := false;
     UI.error := None;
     UI.isArchiving := false;
     UI.isEditing := false;
     UI.editingExpenseId := None;
     UI.editingOriginalDescription := EmptyString |}.

(** Two stored expenses, shown on screen, nothing in progress. *)
Definition world_two : World :=
  {| ui := idle (App.fetchedExpenses env_ok (expensesCol two_docs));
     store := two_docs;
     trace := [];
     fetches := 0;
     clock := 0;
     in_flight := [] |}.

Definition world_empty : World :=
  {| ui := idle [];
     store := mkBackend [] [];
     trace := [];
     fetches := 0;
     clock := 0;
     in_flight := [] |}.

Definition almuerzo : Expense :=
  mkExpense "a" 100 "almuerzo" (Some "Comida"%string)
            (Some "Restaurante"%string) 5.

Definition two_expenses : list Expense :=
  [ mkExpense "a" 100 "almuerzo" (Some "Comida"%string) None 5;
    mkExpense "b" 50 "regalo" (Some "Otros"%string) None 7 ].

(** The screen still shows one expense while the collection already
    holds two. *)
Definition world_stale : World :=
  {| ui := idle [almuerzo];
     store := two_docs;
     trace := [];
     fetches := 0;
     clock := 0;
     in_flight := [] |}.

(** The first two attempts fail, the third answers. *)
Definition env_flaky : Env :=
  {| now := 1000;
     currentMonth := "noviembre de 2026";
     Number_toString := fun _ => "100"%string;
     confirm := true;
     fetch_outcome :=
       fun n => match n with
                | 0%nat => Http.NetworkError
                | 1%nat => Http.Response false None
                | _ => answer "{...}"
                end;
     JSON_parse := fun _ => Some (PValue (Some "Comida"%string)
                                         (Some "Cafe"%string));
     addDoc_expense_outcome := Some "c"%string;
     updateDoc_ok := true;
     addDoc_history_outcome := Some "h"%string;
     getDocs_ok := false;
     deleteDoc_outcome := fun _ => (false, 3%nat) |}.

(** The service is unreachable and the store rejects every write. *)
Definition env_store_down : Env :=
  {| now := 1000;
     currentMonth := "noviembre de 2026";
     Number_toString := fun _ => "100"%string;
     confirm := true;
     fetch_outcome := fun _ => Http.NetworkError;
     JSON_parse := fun _ => None;
     addDoc_expense_outcome := None;
     updateDoc_ok := false;
     addDoc_history_outcome := None;
     getDocs_ok := false;
     deleteDoc_outcome := fun _ => (false, 1%nat) |}.

(** The expense "a" of [world_two] is open for editing. *)
Definition world_editing : World :=
  App.run (fun _ => App.handleEditClick env_ok almuerzo) world_two.

(** The service answers with a text that parses to [null]. *)
Definition env_null : Env :=
  {| now := 1000;
     currentMonth := "noviembre de 2026";
     Number_toString := fun _ => "100"%string;
     confirm := true;
     fetch_outcome := fun _ => answer "null";
     JSON_parse := fun _ => Some PNull;
     addDoc_expense_outcome := Some "c"%string;
     updateDoc_ok := true;
     addDoc_history_outcome := Some "h"%string;
     getDocs_ok := true;
     deleteDoc_outcome := fun _ => (true, 2%nat) |}.

(** The service answers with a text that is JSON for an object without
    labels. *)
Definition env_no_labels : Env :=
  {| now := 1000;
     currentMonth := "noviembre de 2026";
     Number_toString := fun _ => "100"%string;
     confirm := true;
     fetch_outcome := fun _ => answer "{}";
     JSON_parse := fun _ => Some (PValue None None);
     addDoc_expense_outcome := Some "c"%string;
     updateDoc_ok := true;
     addDoc_history_outcome := Some "h"%string;
     getDocs_ok := true;
     deleteDoc_outcome := fun _ => (true, 2%nat) |}.

(** Expenses filed under names that every object inherits. *)
Definition under_proto : list Expense :=
  [ mkExpense "p" 100 "varios" (Some "__proto__"%string) None 5 ].

Definition under_constructor : list Expense :=
  [ mkExpense "c" 100 "obra" (Some "constructor"%string) None 5 ].

Definition mixed_labels : list Expense :=
  [ mkExpense "1" 10 "pan" (Some "A"%string) None 1;
    mkExpense "2" 5 "obra" (Some "constructor"%string) None 2;
    mkExpense "3" 20 "taxi" (Some "B"%string) None 3 ].

Definition ana_cafe : Service.ExpenseData :=
  Service.mkData (Some "ana"%string) "cafe" 3 "Comida".
Definition luis_taxi : Service.ExpenseData :=
  Service.mkData (Some "luis"%string) "taxi" 9 "Transporte".

Definition service_ok : Service.Env :=
  Service.mkEnv (Some "n1"%string) 1 true 77.

Definition shared_collection : Service.Collection :=
  [ ("e1"%string, Service.mkStored ana_cafe 10);
    ("e2"%string, Service.mkStored luis_taxi 11) ].

End Scenario.

(* ===================================================================== *)
(** ** Sums of numbers *)
(* ===================================================================== *)

(** The sum of a list of numbers, as the properties below speak of
    "the sum of all entries". *)
Definition Qsum (l : list Q) : Q := fold_right Qplus 0 l.

(** The names and the values of an object's own properties, in creation
    order. *)
Definition keys {V : Type} (o : JS.Obj V) : list string := map fst o.
Definition values {V : Type} (o : JS.Obj V) : list V := map snd o.

(* ===================================================================== *)
(** ** Facts about the built-ins *)
(* ===================================================================== *)

Section SortFacts.
Context {A : Type}.
Variable cmp : A -> A -> Q.

Lemma insert_perm (x : A) (l : list A) :
  Permutation (JS.insert cmp x l) (x :: l).
Proof.
  induction l as [|y l IH]; simpl; [reflexivity|].
  destruct (Qle_bool (cmp x y) 0); [reflexivity|].
  rewrite IH. apply perm_swap.
Qed.

Lemma Array_sort_perm (l : list A) : Permutation (JS.Array_sort cmp l) l.
Proof.
  induction l as [|x l IH]; simpl; [reflexivity|].
  rewrite insert_perm. now constructor.
Qed.

Lemma Array_sort_length (l : list A) :
  List.length (JS.Array_sort cmp l) = List.length l.
Proof. apply Permutation_length, Array_sort_perm. Qed.

(** When the comparator decides a total preorder [R], the result is
    ordered by [R]. *)
Variable R : A -> A -> Prop.
Hypothesis R_trans : forall x y z, R x y -> R y z -> R x z.
Hypothesis cmp_le : forall x y, Qle_bool (cmp x y) 0 = true -> R x y.
Hypothesis cmp_gt : forall x y, Qle_bool (cmp x y) 0 = false -> R y x.

Lemma insert_sorted (x : A) (l : list A) :
  StronglySorted R l -> StronglySorted R (JS.insert cmp x l).
Proof.
  induction 1 as [|y l Hs IH Hy]; simpl.
  - repeat constructor.
  - destruct (Qle_bool (cmp x y) 0) eqn:E.
    + constructor; [now constructor|].
      constructor; [now apply cmp_le|].
      eapply Forall_impl; [|exact Hy].
      intros z Hz. eapply R_trans; [apply cmp_le; exact E|exact Hz].
    + constructor; [exact IH|].
      eapply Permutation_Forall; [symmetry; apply insert_perm|].
      constructor; [now apply cmp_gt|exact Hy].
Qed.

Lemma Array_sort_sorted (l : list A) : StronglySorted R (JS.Array_sort cmp l).
Proof.
  induction l as [|x l IH]; simpl; [constructor|].
  now apply insert_sorted.
Qed.
End SortFacts.

Section SumFacts.

Lemma Qsum_app (l1 l2 : list Q) : Qsum (l1 ++ l2) == Qsum l1 + Qsum l2.
Proof.
  induction l1 as [|x l1 IH]; simpl; [ring|]. rewrite IH. ring.
Qed.

Lemma Qsum_perm (l1 l2 : list Q) : Permutation l1 l2 -> Qsum l1 == Qsum l2.
Proof.
  induction 1 as [|x l1 l2 _ IH|x y l|l1 l2 l3 _ IH1 _ IH2]; simpl.
  - reflexivity.
  - now rewrite IH.
  - ring.
  - now rewrite IH1.
Qed.

Lemma Qsum_nonneg (l : list Q) : Forall (fun x => 0 <= x) l -> 0 <= Qsum l.
Proof.
  induction 1 as [|x l Hx _ IH]; simpl; lra.
Qed.

Lemma reduce_sum {B : Type} (f : B -> Q) (l : list B) (a : Q) :
  JS.reduce (fun sum b => sum + f b) a l == a + Qsum (map f l).
Proof.
  unfold JS.reduce. revert a.
  induction l as [|b l IH]; intros a; simpl; [ring|].
  rewrite IH. ring.
Qed.

End SumFacts.

Section ObjFacts.
Context {V : Type}.
Implicit Types (o : JS.Obj V) (k : string) (v : V).

Lemma own_None o k : JS.own o k = None <-> ~ In k (keys o).
Proof.
  induction o as [|[k' v'] o IH]; simpl; [tauto|].
  destruct (String.eqb_spec k' k) as [->|Hne].
  - split; [discriminate|]. intros H. exfalso. apply H. now left.
  - rewrite IH. tauto.
Qed.

Lemma own_define o k k' v :
  JS.own (JS.define o k v) k'
  = if String.eqb k k' then Some v else JS.own o k'.
Proof.
  induction o as [|[k0 v0] o IH]; simpl.
  - now destruct (String.eqb k k').
  - destruct (String.eqb_spec k0 k) as [->|Hne]; simpl.
    + now destruct (String.eqb k k').
    + destruct (String.eqb_spec k0 k') as [->|Hne'].
      * destruct (String.eqb_spec k k') as [->|_]; [contradiction|reflexivity].
      * exact IH.
Qed.

Lemma keys_define o k v :
  keys (JS.define o k v) = if in_dec string_dec k (keys o) then keys o
                           else keys o ++ [k].
Proof.
  unfold keys.
  induction o as [|[k' v'] o IH]; simpl; [reflexivity|].
  destruct (String.eqb_spec k' k) as [->|Hne]; simpl.
  - destruct (string_dec k k) as [E|N]; [|contradiction].
    now destruct (in_dec string_dec k (map fst o)).
  - destruct (string_dec k' k) as [E|N]; [contradiction|].
    rewrite IH.
    now destruct (in_dec string_dec k (map fst o)).
Qed.

Lemma keys_define_In o k v k' :
  In k' (keys (JS.define o k v)) <-> k' = k \/ In k' (keys o).
Proof.
  rewrite keys_define.
  destruct (in_dec string_dec k (keys o)) as [Hin|Hnin].
  - split; [tauto|]. intros [->|H]; assumption.
  - rewrite in_app_iff. simpl. intuition congruence.
Qed.

Lemma keys_define_NoDup o k v :
  NoDup (keys o) -> NoDup (keys (JS.define o k v)).
Proof.
  intros Hnd. rewrite keys_define.
  destruct (in_dec string_dec k (keys o)) as [Hin|Hnin]; [assumption|].
  apply NoDup_app; [assumption|repeat constructor; intros []|].
  intros x Hx [<-|[]]. contradiction.
Qed.

(** Read at their own names, the properties give the values. *)
Lemma own_keys o :
  NoDup (keys o) -> map (JS.own o) (keys o) = map Some (values o).
Proof.
  unfold keys, values.
  induction o as [|[k v] o IH]; simpl; [reflexivity|].
  intros Hnd. inversion Hnd as [|? ? Hnin Hnd']; subst.
  rewrite String.eqb_refl. f_equal.
  rewrite <- (IH Hnd').
  apply map_ext_in. intros k' Hk'.
  destruct (String.eqb_spec k k') as [->|_]; [contradiction|reflexivity].
Qed.

Lemma Object_keys_perm o : Permutation (JS.Object_keys o) (keys o).
Proof.
  unfold JS.Object_keys. fold (keys o).
  rewrite Array_sort_perm.
  induction (keys o) as [|k l IH]; simpl; [reflexivity|].
  destruct (JS.is_array_index k); simpl.
  - now constructor.
  - rewrite <- Permutation_middle. now constructor.
Qed.

End ObjFacts.

Section PrototypeFacts.
Implicit Types (o : JS.Obj JS.Value) (k : string) (v : JS.Value).

Lemma ordinary_not_proto k : JS.inherited k = false -> k <> "__proto__"%string.
Proof. intros H ->. discriminate. Qed.

Lemma keys_set_In o k v k' :
  In k' (keys (JS.set o k v))
  <-> (k' = k /\ k <> "__proto__"%string) \/ In k' (keys o).
Proof.
  unfold JS.set.
  destruct (String.eqb_spec k "__proto__") as [->|Hne].
  - split; [tauto|]. intros [[_ H]|H]; [contradiction|assumption].
  - rewrite keys_define_In. tauto.
Qed.

Lemma keys_set_NoDup o k v : NoDup (keys o) -> NoDup (keys (JS.set o k v)).
Proof.
  unfold JS.set. destruct (String.eqb k "__proto__"); [trivial|].
  apply keys_define_NoDup.
Qed.

Lemma own_set o k k' v :
  JS.own (JS.set o k v) k'
  = if String.eqb k "__proto__" then JS.own o k'
    else if String.eqb k k' then Some v else JS.own o k'.
Proof.
  unfold JS.set. destruct (String.eqb k "__proto__"); [reflexivity|].
  apply own_define.
Qed.

(** At an own name, reading gives the own value. *)
Lemma get_keys o :
  NoDup (keys o) -> map (JS.get o) (keys o) = values o.
Proof.
  intros Hnd. pose proof (own_keys o Hnd) as H.
  apply (f_equal (map (fun x => match x with
                                | Some v => v
                                | None => JS.Undefined
                                end))) in H.
  rewrite !map_map in H. cbn beta iota in H. rewrite map_id in H.
  rewrite <- H. apply map_ext_in. intros k Hk. unfold JS.get.
  destruct (JS.own o k) eqn:E; [reflexivity|].
  apply own_None in E. contradiction.
Qed.

End PrototypeFacts.

Section SortExt.
Context {A : Type}.
Variables cmp cmp' : A -> A -> Q.

Lemma insert_ext (x : A) (l : list A) :
  (forall y, In y l -> cmp x y = cmp' x y) ->
  JS.insert cmp x l = JS.insert cmp' x l.
Proof.
  induction l as [|y l IH]; intros H; simpl; [reflexivity|].
  rewrite (H y (or_introl eq_refl)), IH; [reflexivity|].
  intros z Hz. apply H. now right.
Qed.

(** The sort looks at the comparator on the elements of the array
    only. *)
Lemma Array_sort_ext (l : list A) :
  (forall x y, In x l -> In y l -> cmp x y = cmp' x y) ->
  JS.Array_sort cmp l = JS.Array_sort cmp' l.
Proof.
  induction l as [|x l IH]; intros H; simpl; [reflexivity|].
  fold (JS.Array_sort cmp l). fold (JS.Array_sort cmp' l).
  rewrite <- IH by (intros; apply H; now right).
  apply insert_ext. intros y Hy. apply H; [now left|right].
  now apply (Permutation_in _ (Array_sort_perm cmp l)).
Qed.
End SortExt.

Section AggregationFacts.
Import Aggregation.
Implicit Types (acc : JS.Obj JS.Value) (es : list Expense) (k : string).

Lemma totals_keys_NoDup es acc :
  NoDup (keys acc) -> NoDup (keys (JS.reduce add_to_totals acc es)).
Proof.
  unfold JS.reduce. revert acc.
  induction es as [|e es IH]; intros acc Hnd; simpl; [assumption|].
  apply IH. now apply keys_set_NoDup.
Qed.

(** The names of [totals]: the labels of the input, except
    [__proto__]. *)
Lemma totals_keys_In es acc k :
  In k (keys (JS.reduce add_to_totals acc es))
  <-> In k (keys acc)
      \/ (k <> "__proto__"%string /\ exists e, In e es /\ category_of e = k).
Proof.
  unfold JS.reduce. revert acc.
  induction es as [|e es IH]; intros acc; simpl.
  - split; [tauto|]. intros [H|(_ & e & [] & _)]. exact H.
  - rewrite IH. unfold add_to_totals at 1. rewrite keys_set_In.
    split.
    + intros [[[-> Hne]|H]|(Hne & e' & He' & E)].
      * right. split; [assumption|]. exists e. auto.
      * now left.
      * right. split; [assumption|]. exists e'. auto.
    + intros [H|(Hne & e' & [<-|He'] & E)].
      * left. now right.
      * left. left. subst k. now split.
      * right. split; [assumption|]. exists e'. auto.
Qed.

Lemma totalSpent_sum es : totalSpent es == Qsum (map amount es).
Proof.
  unfold totalSpent, useMemo, total_of. simpl.
  rewrite reduce_sum. ring.
Qed.

Lemma totals_of_NoDup es : NoDup (keys (totals_of es)).
Proof. apply totals_keys_NoDup. constructor. Qed.

Lemma totals_of_keys es k :
  In k (keys (totals_of es))
  <-> k <> "__proto__"%string /\ exists e, In e es /\ category_of e = k.
Proof.
  unfold totals_of. rewrite totals_keys_In. simpl. tauto.
Qed.

Lemma totals_snoc es e :
  totals_of (es ++ [e]) = add_to_totals (totals_of es) e.
Proof. unfold totals_of, JS.reduce. now rewrite fold_left_app. Qed.

Lemma group_amounts_snoc k es e :
  group_amounts k (es ++ [e])
  = group_amounts k es
      ++ (if String.eqb (category_of e) k then [amount e] else []).
Proof.
  unfold group_amounts. rewrite filter_app, map_app. simpl.
  now destruct (String.eqb (category_of e) k).
Qed.

Lemma group_total_snoc k es e :
  group_total k (es ++ [e])
  == group_total k es
     + (if String.eqb (category_of e) k then amount e else 0).
Proof.
  change (group_total k (es ++ [e])) with (Qsum (group_amounts k (es ++ [e]))).
  rewrite group_amounts_snoc, Qsum_app.
  change (Qsum (group_amounts k es)) with (group_total k es).
  destruct (String.eqb (category_of e) k); simpl; ring.
Qed.

Lemma group_total_cons k (e : Expense) es :
  group_total k (e :: es)
  == (if String.eqb (category_of e) k then amount e else 0)
     + group_total k es.
Proof.
  unfold group_total. simpl.
  destruct (String.eqb (category_of e) k); simpl; ring.
Qed.

Lemma group_amounts_perm k es es' :
  Permutation es es' ->
  Permutation (group_amounts k es) (group_amounts k es').
Proof.
  intros H. unfold group_amounts. apply Permutation_map.
  induction H as [|x l l' _ IH|x y l|l1 l2 l3 _ IH1 _ IH2]; simpl.
  - reflexivity.
  - destruct (String.eqb (category_of x) k); [now constructor|assumption].
  - destruct (String.eqb (category_of x) k),
             (String.eqb (category_of y) k);
      try reflexivity. apply perm_swap.
  - now rewrite IH1.
Qed.

Lemma group_total_perm k es es' :
  Permutation es es' -> group_total k es == group_total k es'.
Proof.
  intros H. apply (Qsum_perm (group_amounts k es) (group_amounts k es')).
  now apply group_amounts_perm.
Qed.

(** No step of the reducer gives [totals] a property [__proto__]. *)
Lemma own_totals_proto es : JS.own (totals_of es) "__proto__" = None.
Proof.
  induction es as [|e es IH] using rev_ind; [reflexivity|].
  rewrite totals_snoc. unfold add_to_totals. rewrite own_set.
  destruct (String.eqb (category_of e) "__proto__"); exact IH.
Qed.

(** Under the name of an inherited function, [totals] holds the text of
    that function followed by the amounts filed under the name, in the
    order of the list. *)
Lemma own_totals_member es k :
  JS.inherited k = true -> k <> "__proto__"%string ->
  JS.own (totals_of es) k
  = match group_amounts k es with
    | [] => None
    | l => Some (JS.Str k l)
    end.
Proof.
  intros Hin Hne.
  induction es as [|e es IH] using rev_ind; [reflexivity|].
  rewrite totals_snoc, group_amounts_snoc.
  unfold add_to_totals. rewrite own_set.
  destruct (String.eqb_spec (category_of e) k) as [E|Hk].
  - rewrite E. destruct (String.eqb_spec k "__proto__"); [contradiction|].
    unfold JS.get. rewrite IH, Hin.
    destruct (group_amounts k es) as [|a l]; reflexivity.
  - rewrite app_nil_r.
    destruct (String.eqb (category_of e) "__proto__"); exact IH.
Qed.

(** Under any other name it holds the sum of the amounts filed under
    the name. *)
Lemma own_totals_ordinary es k :
  JS.inherited k = false ->
  (group_amounts k es = [] /\ JS.own (totals_of es) k = None)
  \/ (group_amounts k es <> []
      /\ exists q, JS.own (totals_of es) k = Some (JS.Num q)
                   /\ q == group_total k es).
Proof.
  intros Hin. pose proof (ordinary_not_proto k Hin) as Hne.
  induction es as [|e es IH] using rev_ind; [now left|].
  rewrite totals_snoc, group_amounts_snoc.
  unfold add_to_totals. rewrite own_set.
  destruct (String.eqb_spec (category_of e) k) as [E|Hk].
  - right. split; [now destruct (group_amounts k es)|].
    rewrite E. destruct (String.eqb_spec k "__proto__"); [contradiction|].
    unfold JS.get. rewrite Hin.
    assert (group_total k (es ++ [e]) == group_total k es + amount e) as Hg.
    { rewrite group_total_snoc, E, String.eqb_refl. reflexivity. }
    destruct IH as [[Hnil ->]|(_ & q & -> & Hq)].
    + eexists. split; [reflexivity|]. rewrite Hg.
      change (group_total k es) with (Qsum (group_amounts k es)).
      rewrite Hnil. reflexivity.
    + cbn [JS.or_zero]. destruct (Qeq_bool q 0) eqn:Z.
      * apply Qeq_bool_eq in Z. eexists. split; [reflexivity|].
        rewrite Hg, <- Hq, Z. reflexivity.
      * eexists. split; [reflexivity|]. rewrite Hg, Hq. reflexivity.
  - rewrite app_nil_r.
    assert (group_total k (es ++ [e]) == group_total k es) as Hg.
    { rewrite group_total_snoc.
      destruct (String.eqb_spec (category_of e) k); [contradiction|ring]. }
    assert (JS.own
              (if String.eqb (category_of e) "__proto__"
               then totals_of es else totals_of es) k
            = JS.own (totals_of es) k) as Hsame
        by now destruct (String.eqb (category_of e) "__proto__").
    destruct (String.eqb (category_of e) "__proto__");
      (destruct IH as [[Hnil Hown]|(Hcons & q & Hown & Hq)];
       [left; now split
       |right; split; [assumption|]; exists q; split; [assumption|];
        now rewrite Hg]).
Qed.

(** What [totals[k]] is for a name [k] of [totals]. *)
Lemma get_totals_ordinary es k :
  JS.inherited k = false -> In k (keys (totals_of es)) ->
  exists q, JS.get (totals_of es) k = JS.Num q /\ q == group_total k es.
Proof.
  intros Hin Hk. unfold JS.get.
  destruct (own_totals_ordinary es k Hin) as [[_ Hown]|(_ & q & Hown & Hq)].
  - apply own_None in Hown. contradiction.
  - rewrite Hown. now exists q.
Qed.

Lemma get_totals_member es k :
  JS.inherited k = true -> In k (keys (totals_of es)) ->
  JS.get (totals_of es) k = JS.Str k (group_amounts k es)
  /\ group_amounts k es <> [].
Proof.
  intros Hin Hk. unfold JS.get.
  assert (k <> "__proto__"%string) as Hne
      by (apply totals_of_keys in Hk; tauto).
  pose proof (own_totals_member es k Hin Hne) as Hown.
  destruct (group_amounts k es) as [|a l].
  - apply own_None in Hown. contradiction.
  - rewrite Hown. split; [reflexivity|discriminate].
Qed.

(** The entries of [categoryData], up to their order. *)
Lemma categoryData_perm es :
  Permutation (categoryData es)
              (map (fun k =>
                      {| entry_category := k;
                         total := JS.get (totals_of es) k;
                         percentage :=
                           percentage_of (total_of es)
                                         (JS.get (totals_of es) k) |})
                   (keys (totals_of es))).
Proof.
  unfold categoryData, useMemo, data_of. simpl.
  rewrite Array_sort_perm.
  apply Permutation_map, Object_keys_perm.
Qed.

Lemma categoryData_totals es :
  Permutation (map total (categoryData es)) (values (totals_of es)).
Proof.
  rewrite (Permutation_map total (categoryData_perm es)).
  rewrite map_map. cbn [total].
  rewrite <- (get_keys _ (totals_of_NoDup es)). reflexivity.
Qed.

Lemma categoryData_categories es :
  Permutation (map entry_category (categoryData es)) (keys (totals_of es)).
Proof.
  rewrite (Permutation_map entry_category (categoryData_perm es)).
  rewrite map_map. cbn [entry_category]. now rewrite map_id.
Qed.

(** How an entry of [categoryData] is made. *)
Lemma entry_shape es (x : CategorySummaryEntry) :
  In x (categoryData es) ->
  In (entry_category x) (keys (totals_of es))
  /\ total x = JS.get (totals_of es) (entry_category x)
  /\ percentage x = percentage_of (totalSpent es) (total x).
Proof.
  intros Hx. apply (Permutation_in _ (categoryData_perm es)) in Hx.
  apply in_map_iff in Hx as (k & <- & Hk). cbn.
  repeat split; assumption.
Qed.

End AggregationFacts.

Section OrdinaryFacts.
Import Aggregation.
Implicit Types (es : list Expense) (k : string).

(** Under labels that name no inherited member, every total is the sum
    of its group. *)
Lemma ordinary_entry es (x : CategorySummaryEntry) :
  In x (categoryData es) -> JS.inherited (entry_category x) = false ->
  exists q, total x = JS.Num q /\ q == group_total (entry_category x) es.
Proof.
  intros Hx Hin. destruct (entry_shape es x Hx) as (Hk & -> & _).
  now apply get_totals_ordinary.
Qed.

Lemma ordinary_label es (x : CategorySummaryEntry) :
  ordinary_labels es -> In x (categoryData es) ->
  JS.inherited (entry_category x) = false.
Proof.
  intros Hes Hx. destruct (entry_shape es x Hx) as (Hk & _).
  apply totals_of_keys in Hk as (_ & e & He & <-).
  unfold ordinary_labels in Hes. rewrite Forall_forall in Hes.
  now apply Hes.
Qed.

Lemma Qsum_values_define (o : JS.Obj JS.Value) k (v : JS.Value) :
  Qsum (map number (values (JS.define o k v)))
  == Qsum (map number (values o))
     - match JS.own o k with Some v' => number v' | None => 0 end
     + number v.
Proof.
  unfold values.
  induction o as [|[k' v'] o IH]; simpl; [ring|].
  destruct (String.eqb_spec k' k) as [->|Hne]; simpl.
  - ring.
  - rewrite IH. ring.
Qed.

Lemma totals_sum_ordinary es :
  ordinary_labels es ->
  Qsum (map number (values (totals_of es))) == Qsum (map amount es).
Proof.
  induction es as [|e es IH] using rev_ind; intros Hes; [reflexivity|].
  apply Forall_app in Hes as [Hes He]. inversion He as [|? ? Hin _]; subst.
  rewrite totals_snoc, map_app, Qsum_app. simpl.
  unfold add_to_totals, JS.set.
  destruct (String.eqb_spec (category_of e) "__proto__") as [E|_];
    [rewrite E in Hin; discriminate|].
  rewrite Qsum_values_define, (IH Hes). unfold JS.get. rewrite Hin.
  destruct (own_totals_ordinary es (category_of e) Hin)
    as [[_ ->]|(_ & q & -> & _)]; simpl.
  - ring.
  - destruct (Qeq_bool q 0) eqn:Z; simpl; [|ring].
    apply Qeq_bool_eq in Z. rewrite Z. ring.
Qed.

Lemma categoryData_sum es :
  ordinary_labels es ->
  Qsum (map (fun x => number (total x)) (categoryData es)) == totalSpent es.
Proof.
  intros Hes. rewrite <- (map_map total number).
  rewrite (Qsum_perm _ _ (Permutation_map number (categoryData_totals es))).
  now rewrite totals_sum_ordinary, totalSpent_sum.
Qed.

Lemma categoryData_sorted es :
  ordinary_labels es ->
  StronglySorted (fun a b => number (total b) <= number (total a))
                 (categoryData es).
Proof.
  intros Hes. unfold categoryData, useMemo. cbn [snd].
  rewrite (Array_sort_ext
             by_total_desc
             (fun a b => number (total b) - number (total a))).
  - apply Array_sort_sorted.
    + intros x y z Hxy Hyz. lra.
    + intros x y H. apply Qle_bool_iff in H. lra.
    + intros x y H.
      destruct (Qlt_le_dec (number (total x)) (number (total y)))
        as [Hlt|Hge]; [lra|].
      assert (Qle_bool (number (total y) - number (total x)) 0 = true) as E
          by (apply Qle_bool_iff; lra).
      congruence.
  - assert (forall x, In x (data_of (total_of es) (totals_of es)) ->
                      exists q, total x = JS.Num q) as Hnum.
    { intros x Hx.
      assert (In x (categoryData es)) as Hx'
          by (apply (Permutation_in _ (Permutation_sym (Array_sort_perm _ _)));
              exact Hx).
      destruct (ordinary_entry es x Hx' (ordinary_label es x Hes Hx'))
        as (q & Hq & _).
      now exists q. }
    intros x y Hx Hy.
    destruct (Hnum x Hx) as (p & Hp), (Hnum y Hy) as (q & Hq).
    unfold by_total_desc. now rewrite Hp, Hq.
Qed.

End OrdinaryFacts.

Section PositiveFacts.
Import Aggregation.
Implicit Types (es : list Expense) (k : string).

Lemma group_total_bounds k es :
  Forall (fun e => 0 < amount e) es ->
  0 <= group_total k es /\ group_total k es <= Qsum (map amount es).
Proof.
  induction 1 as [|e es He _ [IH0 IH1]].
  - unfold group_total. simpl. lra.
  - rewrite group_total_cons. simpl.
    destruct (String.eqb (category_of e) k); lra.
Qed.

Lemma group_total_positive es (e : Expense) :
  Forall (fun e => 0 < amount e) es -> In e es ->
  0 < group_total (category_of e) es.
Proof.
  induction 1 as [|e' es He' Hes IH]; [contradiction|].
  intros Hin. rewrite group_total_cons.
  pose proof (group_total_bounds (category_of e) es Hes) as [H0 _].
  destruct Hin as [->|Hin].
  - rewrite String.eqb_refl. lra.
  - specialize (IH Hin).
    destruct (String.eqb (category_of e') (category_of e)); lra.
Qed.

(** With strictly positive amounts, the total of a label that names no
    inherited member is strictly positive. *)
Lemma ordinary_total_positive es (x : CategorySummaryEntry) :
  Forall (fun e => 0 < amount e) es ->
  In x (categoryData es) -> JS.inherited (entry_category x) = false ->
  exists q, total x = JS.Num q /\ 0 < q /\ q <= totalSpent es.
Proof.
  intros Hpos Hx Hin.
  destruct (ordinary_entry es x Hx Hin) as (q & Hq & Hg).
  destruct (entry_shape es x Hx) as (Hk & _).
  apply totals_of_keys in Hk as (_ & e & He & E).
  exists q. split; [exact Hq|]. rewrite Hg, <- E. split.
  - now apply group_total_positive.
  - rewrite totalSpent_sum. now apply group_total_bounds.
Qed.

(** With strictly positive amounts and labels that name no inherited
    member, the percentages of a non-empty list are numbers between 0
    and 100 that add up to 100. *)
Lemma ordinary_percentages es :
  es <> [] -> Forall (fun e => 0 < amount e) es -> ordinary_labels es ->
  Forall (fun x => exists p, percentage x = Some p /\ 0 <= p /\ p <= 100)
         (categoryData es)
  /\ Qsum (map (fun x => percent (percentage x)) (categoryData es)) == 100.
Proof.
  intros Hne Hpos Hord.
  assert (0 < totalSpent es) as HT.
  { rewrite totalSpent_sum.
    destruct Hpos as [|e es He Hes]; [contradiction|]. simpl.
    assert (0 <= Qsum (map amount es)); [|lra].
    apply Qsum_nonneg, Forall_map.
    eapply Forall_impl; [|exact Hes]. intros; simpl in *; lra. }
  assert (forall x, In x (categoryData es) ->
                    exists q, total x = JS.Num q /\ 0 < q /\ q <= totalSpent es
                              /\ percentage x
                                 = Some (q / totalSpent es * 100)) as Hshape.
  { intros x Hx.
    destruct (ordinary_total_positive es x Hpos Hx
                                      (ordinary_label es x Hord Hx))
      as (q & Hq & H0 & H1).
    exists q. repeat (split; [assumption|]).
    destruct (entry_shape es x Hx) as (_ & _ & ->).
    unfold percentage_of. rewrite Hq.
    destruct (Qlt_le_dec 0 (totalSpent es)); [reflexivity|lra]. }
  split.
  - apply Forall_forall. intros x Hx.
    destruct (Hshape x Hx) as (q & _ & H0 & H1 & ->).
    eexists. split; [reflexivity|].
    assert (0 <= q / totalSpent es) by (apply Qle_shift_div_l; lra).
    assert (q / totalSpent es <= 1) by (apply Qle_shift_div_r; lra).
    lra.
  - assert (forall l : list CategorySummaryEntry,
               (forall x, In x l -> In x (categoryData es)) ->
               Qsum (map (fun x => percent (percentage x)) l)
               == Qsum (map (fun x => number (total x)) l)
                  * (/ totalSpent es * 100)) as Hsum.
    { induction l as [|x l IH]; intros Hl; simpl; [ring|].
      rewrite IH by (intros; apply Hl; now right).
      destruct (Hshape x (Hl x (or_introl eq_refl))) as (q & -> & _ & _ & ->).
      simpl. unfold Qdiv. ring. }
    rewrite (Hsum _ (fun x H => H)).
    rewrite (categoryData_sum es Hord). field. lra.
Qed.

End PositiveFacts.

(* ===================================================================== *)
(** ** Properties of the aggregation *)
(* ===================================================================== *)

(** C4. For the one expense of 100 filed under [__proto__], [totalSpent]
    is 100 while [categoryData] has no entry: the totals of the entries
    add up to 0, not to [totalSpent].  The assignment
    [acc[category] = ...] on the object literal creates no property of
    that name. *)
Theorem proto_label_total_is_lost :
  Scenario.under_proto <> []
  /\ Aggregation.totalSpent Scenario.under_proto == 100
  /\ Aggregation.categoryData Scenario.under_proto = []
  /\ ~ Qsum (map (fun x => number (total x))
                 (Aggregation.categoryData Scenario.under_proto))
       == Aggregation.totalSpent Scenario.under_proto.
Proof.
  split; [discriminate|]. split; [reflexivity|]. split; [reflexivity|].
  cbn. intros H. discriminate H.
Qed.

(** C5. For the one expense of 100 (strictly positive) filed under
    [constructor], the only entry of [categoryData] has a total that is
    a text and a percentage that is [NaN], which lies in no interval; for
    the one expense of 100 filed under [__proto__] there is no
    percentage at all, and the percentages add up to 0, not to 100. *)
Theorem inherited_label_percentage_is_NaN :
  Forall (fun e => 0 < amount e) Scenario.under_constructor
  /\ Aggregation.categoryData Scenario.under_constructor
     = [ {| entry_category := "constructor";
            total := JS.Str "constructor" [100];
            percentage := None |} ]
  /\ Forall (fun e => 0 < amount e) Scenario.under_proto
  /\ map percentage (Aggregation.categoryData Scenario.under_proto) = []
  /\ ~ Qsum (map (fun x => percent (percentage x))
                 (Aggregation.categoryData Scenario.under_proto)) == 100.
Proof.
  split; [repeat constructor|]. split; [reflexivity|].
  split; [repeat constructor|]. split; [reflexivity|].
  cbn. intros H. discriminate H.
Qed.

(** C6. For 10 under "A", then 5 under [constructor], then 20 under
    "B", [categoryData] comes out in the order of the input: the total
    filed under [constructor] is a text, the comparator gives [NaN]
    against it, and the entry with total 10 stays ahead of the entry
    with total 20.  For the example of the property (100 under "Comida",
    50 under "Otros") [totalSpent] is 150 and [categoryData] is Comida
    with 100 and 200/3 percent (66.7 to one decimal) followed by Otros
    with 50 and 100/3 percent (33.3 to one decimal). *)
Theorem inherited_label_breaks_order :
  map (fun x => (entry_category x, total x))
      (Aggregation.categoryData Scenario.mixed_labels)
  = [ ("A"%string, JS.Num 10);
      ("constructor"%string, JS.Str "constructor" [5]);
      ("B"%string, JS.Num 20) ]
  /\ ~ StronglySorted descending
         (Aggregation.categoryData Scenario.mixed_labels)
  /\ Aggregation.totalSpent Scenario.two_expenses == 150
  /\ exists p1 p2,
      Aggregation.categoryData Scenario.two_expenses
      = [ {| entry_category := "Comida"; total := JS.Num 100;
             percentage := Some p1 |};
          {| entry_category := "Otros"; total := JS.Num 50;
             percentage := Some p2 |} ]
      /\ p1 == 200 / 3 /\ p2 == 100 / 3
      /\ 66.65 <= p1 /\ p1 < 66.75 /\ 33.25 <= p2 /\ p2 < 33.35.
Proof.
  split; [reflexivity|]. split.
  - intros H. inversion H as [|a l _ Hall]; subst.
    inversion Hall as [|b l' _ Hall']; subst.
    inversion Hall' as [|c l'' Hc _]; subst.
    unfold descending in Hc. cbn in Hc.
    apply (Qle_not_lt _ _ Hc). reflexivity.
  - split; [reflexivity|].
    eexists. eexists. split; [reflexivity|].
    repeat split; try reflexivity; try discriminate.
Qed.

(** C10. For the one expense of 100 filed under [__proto__], the label
    occurs in the input and has no entry in [categoryData]; for the one
    expense of 100 filed under [constructor], the amount is strictly
    positive and the entry's total is no number at all. *)
Theorem proto_label_has_no_entry :
  (exists e, In e Scenario.under_proto
             /\ JS.string_or (category e) "No Categorizado"
                = "__proto__"%string)
  /\ ~ In "__proto__"%string
          (map entry_category
               (Aggregation.categoryData Scenario.under_proto))
  /\ Forall (fun e => 0 < amount e) Scenario.under_constructor
  /\ Forall (fun x => JS.toNumber (total x) = None)
            (Aggregation.categoryData Scenario.under_constructor).
Proof.
  split.
  - eexists. split; [left; reflexivity|reflexivity].
  - split; [intros []|]. split; repeat constructor.
Qed.


(* ===================================================================== *)
(** ** Properties of the archival *)
(* ===================================================================== *)

Section PromiseFacts.
Implicit Types (ps : list Pending) (p : Pending).

Lemma first_rejection_None ps :
  Remote.first_rejection ps = None <-> Forall (fun p => succeeds p = true) ps.
Proof.
  induction ps as [|p ps IH]; simpl.
  - split; [constructor|reflexivity].
  - destruct (Remote.first_rejection ps) as [t|].
    + split; [discriminate|].
      intros H. inversion H as [|? ? _ Hps]; subst.
      apply IH in Hps. discriminate.
    + destruct (succeeds p) eqn:E.
      * split; [|reflexivity]. intros _. constructor; [assumption|].
        now apply IH.
      * split; [discriminate|].
        intros H. inversion H; subst. congruence.
Qed.

(** The tick at which [Promise.all] rejects is that of the earliest
    rejected promise. *)
Lemma first_rejection_Some ps t :
  Remote.first_rejection ps = Some t ->
  (exists p, In p ps /\ succeeds p = false /\ settles_at p = t)
  /\ (forall p, In p ps -> succeeds p = false -> (t <= settles_at p)%nat).
Proof.
  revert t. induction ps as [|p ps IH]; simpl; [discriminate|].
  intros t.
  destruct (Remote.first_rejection ps) as [t'|] eqn:E.
  - destruct (IH t' eq_refl) as ((q & Hq & Hf & Ht) & Hmin).
    destruct (succeeds p) eqn:Ep; intros [= <-].
    + split; [exists q; auto|].
      intros p' [<-|Hp'] Hs; [congruence|auto].
    + split.
      * destruct (Nat.le_ge_cases (settles_at p) t') as [Hle|Hge].
        -- exists p. rewrite Nat.min_l by assumption. auto.
        -- exists q. rewrite Nat.min_r by assumption. auto.
      * intros p' [<-|Hp'] Hs; [lia|].
        specialize (Hmin p' Hp' Hs). lia.
  - apply first_rejection_None in E.
    destruct (succeeds p) eqn:Ep; [discriminate|intros [= <-]].
    split; [exists p; auto|].
    intros p' [<-|Hp'] Hs; [lia|].
    rewrite Forall_forall in E. specialize (E p' Hp'). congruence.
Qed.

Lemma last_settlement_bounds ps p :
  In p ps -> (settles_at p <= Remote.last_settlement ps)%nat.
Proof.
  induction ps as [|q ps IH]; simpl; [contradiction|].
  intros [<-|H]; [lia|]. specialize (IH H). lia.
Qed.

Lemma settled_keeps_history ps b :
  historyCol (fold_left (fun b p => Remote.settle p b) ps b) = historyCol b.
Proof.
  revert b. induction ps as [|p ps IH]; intros b; simpl; [reflexivity|].
  rewrite IH. unfold Remote.settle. now destruct (succeeds p).
Qed.

(** A document survives the settled requests only if none of the
    successful ones was aimed at it. *)
Lemma settled_survivor ps b d :
  In d (expensesCol (fold_left (fun b p => Remote.settle p b) ps b)) ->
  In d (expensesCol b)
  /\ forall p, In p ps -> succeeds p = true -> target p <> fst d.
Proof.
  revert b. induction ps as [|p ps IH]; intros b; simpl.
  - intros H. split; [assumption|]. intros ? [].
  - intros H. apply IH in H as [Hin Hrest].
    unfold Remote.settle in Hin.
    destruct (succeeds p) eqn:E.
    + simpl in Hin. apply filter_In in Hin as [Hin Hne].
      split; [assumption|].
      intros q [<-|Hq] Hs; [|auto].
      intros Heq. rewrite <- Heq, String.eqb_refl in Hne. discriminate.
    + split; [assumption|].
      intros q [<-|Hq] Hs; [congruence|auto].
Qed.

Lemma filter_all {A : Type} (f : A -> bool) (l : list A) :
  (forall x, In x l -> f x = true) -> filter f l = l.
Proof.
  induction l as [|x l IH]; intros H; simpl; [reflexivity|].
  rewrite (H x (or_introl eq_refl)), IH; [reflexivity|].
  intros y Hy. apply H. now right.
Qed.

Lemma filter_none {A : Type} (f : A -> bool) (l : list A) :
  (forall x, In x l -> f x = false) -> filter f l = [].
Proof.
  induction l as [|x l IH]; intros H; simpl; [reflexivity|].
  rewrite (H x (or_introl eq_refl)), IH; [reflexivity|].
  intros y Hy. apply H. now right.
Qed.

End PromiseFacts.

Lemma world_eta (w : World) :
  mkWorld (ui w) (store w) (trace w) (fetches w) (clock w) (in_flight w) = w.
Proof. now destruct w. Qed.

(** Issuing the batch: one request per document, in order, none awaited. *)
Lemma deletePromises_run (env : Env) (docs : list (string * Doc.t)) (w : World) :
  App.deletePromises env docs w
  = (Fulfilled (map (fun d => Remote.promise_of env (clock w) (fst d)) docs),
     mkWorld (ui w) (store w)
             (trace w ++ map (fun d => EvDeleteExpense (fst d)) docs)
             (fetches w) (clock w)
             (in_flight w
                ++ map (fun d => Remote.promise_of env (clock w) (fst d)) docs)).
Proof.
  revert w. induction docs as [|d docs IH]; intros w; simpl.
  - unfold ret. now rewrite !app_nil_r, world_eta.
  - unfold bind, Remote.deleteDoc. rewrite IH. simpl.
    now rewrite <- !app_assoc.
Qed.

(** One step of symbolic execution of a handler. *)
Ltac step :=
  cbv beta iota zeta delta
      [try_catch_finally try_catch bind setState log throw ret
       Remote.addDoc_history Remote.getDocs getStore setStore negb];
  cbn [ui store trace fetches clock in_flight expensesCol historyCol
       snd fst].

(** What the handler does once the history write and the read of the
    collection have succeeded. *)
Lemma archive_run (env : Env) (w : World) (hid : string) :
  UI.ready (ui w) = true ->
  UI.expenses (ui w) <> [] ->
  confirm env = true ->
  addDoc_history_outcome env = Some hid ->
  getDocs_ok env = true ->
  let docs := expensesCol (store w) in
  let ps := map (fun d => Remote.promise_of env (clock w) (fst d)) docs in
  let issued :=
    mkWorld (UI.setError None (UI.setIsArchiving true (ui w)))
            (mkBackend docs
                       (historyCol (store w) ++ [(hid, App.archiveData env (ui w))]))
            (trace w ++ [EvConfirm; EvAddHistory (App.archiveData env (ui w));
                         EvGetDocs]
                     ++ map (fun d => EvDeleteExpense (fst d)) docs)
            (fetches w) (clock w) (in_flight w ++ ps) in
  let done := Remote.advance
                (match Remote.first_rejection ps with
                 | Some t => t
                 | None => Remote.last_settlement ps
                 end) issued in
  App.run (App.handleResetAndArchive env) w
  = mkWorld (UI.setIsArchiving false
               (match Remote.first_rejection ps with
                | Some _ => UI.setError (Some App.msg_archive) (ui done)
                | None => ui done
                end))
            (store done) (trace done) (fetches done) (clock done)
            (in_flight done).
Proof.
  intros Hready Hne Hconfirm Hhist Hget docs ps issued done.
  unfold App.run, App.handleResetAndArchive.
  assert ((List.length (UI.expenses (ui w)) =? 0)%nat = false) as Hlen
      by (destruct (UI.expenses (ui w)); [contradiction|reflexivity]).
  rewrite Hready, Hlen. cbn [negb orb].
  step. rewrite Hconfirm. step. rewrite Hhist. step. rewrite Hget. step.
  rewrite deletePromises_run. step.
  fold docs. fold ps.
  unfold Remote.Promise_all.
  subst done issued.
  destruct (Remote.first_rejection ps) as [t|]; step;
    rewrite <- !app_assoc; reflexivity.
Qed.

(** C1. When the write of the archive record to the history collection
    is rejected, the handler issues no delete, leaves the store as it
    was, and, the write having been attempted, shows the archival error
    and leaves archiving mode. *)
Theorem archival_fail_closed (env : Env) (w : World) :
  addDoc_history_outcome env = None ->
  let w' := App.run (App.handleResetAndArchive env) w in
  store w' = store w
  /\ in_flight w' = in_flight w
  /\ exists evs,
      trace w' = trace w ++ evs
      /\ Forall (fun ev => is_delete ev = false) evs
      /\ ((exists r, In (EvAddHistory r) evs) ->
          UI.error (ui w') = Some App.msg_archive
          /\ UI.isArchiving (ui w') = false).
Proof.
  intros Hhist w'. subst w'. unfold App.run, App.handleResetAndArchive.
  destruct (negb (UI.ready (ui w))
            || (List.length (UI.expenses (ui w)) =? 0)%nat).
  { split; [reflexivity|]. split; [reflexivity|].
    exists []. rewrite app_nil_r.
    split; [reflexivity|]. split; [constructor|]. intros (r & []). }
  step. destruct (confirm env); step.
  - rewrite Hhist. step.
    split; [reflexivity|]. split; [reflexivity|].
    exists [EvConfirm; EvAddHistory (App.archiveData env (ui w))].
    rewrite <- app_assoc.
    split; [reflexivity|]. split; [repeat constructor|].
    intros _. split; reflexivity.
  - split; [reflexivity|]. split; [reflexivity|].
    exists [EvConfirm].
    split; [reflexivity|]. split; [repeat constructor|].
    intros (r & [H|[]]). discriminate.
Qed.

Lemma archival_fail_closed_witness :
  addDoc_history_outcome Scenario.env_history_down = None
  /\ store (App.run (App.handleResetAndArchive Scenario.env_history_down)
                    Scenario.world_two)
     = store Scenario.world_two.
Proof.
  split; [reflexivity|].
  exact (proj1 (archival_fail_closed Scenario.env_history_down
                                     Scenario.world_two eq_refl)).
Defined.

Lemma fetchedExpenses_perm (env : Env) (docs : list (string * Doc.t)) :
  Permutation (map amount (App.fetchedExpenses env docs))
              (map (fun d => Doc.amount (snd d)) docs).
Proof.
  unfold App.fetchedExpenses.
  rewrite (Permutation_map amount (Array_sort_perm _ _)).
  rewrite map_map. reflexivity.
Qed.

Lemma fetchedExpenses_length (env : Env) (docs : list (string * Doc.t)) :
  List.length (App.fetchedExpenses env docs) = List.length docs.
Proof.
  unfold App.fetchedExpenses. now rewrite Array_sort_length, length_map.
Qed.

(** C2. A successful archival of a non-empty collection of N expenses
    (confirmed, every call accepted, nothing else touching the store,
    the screen showing the collection) adds exactly one record to the
    history, with [totalExpensesCount] N and [totalSpent] the aggregate
    of the expenses before the archival, and leaves the expenses
    collection empty. *)
Theorem archival_success (env : Env) (w : World) (hid : string) :
  UI.ready (ui w) = true ->
  UI.expenses (ui w) = App.fetchedExpenses env (expensesCol (store w)) ->
  expensesCol (store w) <> [] ->
  in_flight w = [] ->
  confirm env = true ->
  addDoc_history_outcome env = Some hid ->
  getDocs_ok env = true ->
  (forall d, In d (expensesCol (store w)) ->
             fst (deleteDoc_outcome env (fst d)) = true) ->
  let N := List.length (expensesCol (store w)) in
  let w' := App.run (App.handleResetAndArchive env) w in
  exists r,
    historyCol (store w') = historyCol (store w) ++ [(hid, r)]
    /\ Archive.totalExpensesCount r = N
    /\ Archive.totalSpent r = Aggregation.totalSpent (UI.expenses (ui w))
    /\ Archive.totalSpent r
       == Qsum (map (fun d => Doc.amount (snd d)) (expensesCol (store w)))
    /\ expensesCol (store w') = []
    /\ in_flight w' = []
    /\ UI.error (ui w') = None.
Proof.
  intros Hready Hsync Hne Hidle Hconfirm Hhist Hget Hdel N w'.
  assert (UI.expenses (ui w) <> []) as Hne'.
  { intros E. apply (f_equal (@List.length _)) in E.
    rewrite Hsync, fetchedExpenses_length in E.
    destruct (expensesCol (store w)); [contradiction|discriminate]. }
  subst w'. rewrite (archive_run env w hid) by assumption.
  set (ps := map (fun d => Remote.promise_of env (clock w) (fst d))
                 (expensesCol (store w))).
  assert (Forall (fun p => succeeds p = true) ps) as Hok.
  { apply Forall_map, Forall_forall. intros d Hd. now apply Hdel. }
  rewrite (proj2 (first_rejection_None ps) Hok).
  unfold Remote.advance. rewrite Hidle.
  cbn [ui store trace fetches clock in_flight app].
  rewrite (filter_all _ ps), (filter_none _ ps).
  2:{ intros p Hp. apply last_settlement_bounds in Hp.
      apply Nat.leb_le in Hp. now rewrite Hp. }
  2:{ intros p Hp. apply last_settlement_bounds in Hp.
      now apply Nat.leb_le. }
  exists (App.archiveData env (ui w)).
  repeat split.
  - now rewrite settled_keeps_history.
  - cbn [App.archiveData Archive.totalExpensesCount].
    now rewrite Hsync, fetchedExpenses_length.
  - cbn [App.archiveData Archive.totalSpent].
    rewrite totalSpent_sum, Hsync.
    apply Qsum_perm, fetchedExpenses_perm.
  - match goal with |- ?l = [] => destruct l as [|d l'] eqn:E end;
      [reflexivity|exfalso].
    assert (In d (d :: l')) as Hd by now left.
    rewrite <- E in Hd. apply settled_survivor in Hd as [Hin Hnone].
    cbn [expensesCol] in Hin.
    apply (Hnone (Remote.promise_of env (clock w) (fst d))).
    + unfold ps. now apply (in_map (fun d => Remote.promise_of env (clock w) (fst d))).
    + now apply Hdel.
    + reflexivity.
Qed.

Lemma archival_success_witness :
  exists r,
    historyCol (store (App.run (App.handleResetAndArchive Scenario.env_ok)
                               Scenario.world_two))
    = [("h"%string, r)]
    /\ Archive.totalExpensesCount r = 2%nat
    /\ Archive.totalSpent r = 150
    /\ expensesCol (store (App.run (App.handleResetAndArchive Scenario.env_ok)
                                   Scenario.world_two)) = [].
Proof.
  destruct (archival_success Scenario.env_ok Scenario.world_two "h")
    as (r & H1 & H2 & H3 & _ & H5 & _).
  - reflexivity.
  - reflexivity.
  - discriminate.
  - reflexivity.
  - reflexivity.
  - reflexivity.
  - reflexivity.
  - intros d _. reflexivity.
  - exists r. repeat split; assumption.
Defined.

(** C3, as the code has it. The deletes are issued together, one per
    document of the snapshot and before any of them is awaited; the
    handler then completes when the last delete has settled if all of
    them succeed, and at the earliest rejection otherwise, whatever is
    still in flight then. *)
Theorem deletes_issued_together_then_Promise_all
        (env : Env) (w : World) (hid : string) :
  UI.ready (ui w) = true ->
  UI.expenses (ui w) <> [] ->
  confirm env = true ->
  addDoc_history_outcome env = Some hid ->
  getDocs_ok env = true ->
  in_flight w = [] ->
  let ids := map fst (expensesCol (store w)) in
  let ps := map (Remote.promise_of env (clock w)) ids in
  let w' := App.run (App.handleResetAndArchive env) w in
  trace w'
  = trace w ++ [EvConfirm; EvAddHistory (App.archiveData env (ui w)); EvGetDocs]
            ++ map EvDeleteExpense ids
  /\ UI.isArchiving (ui w') = false
  /\ (Forall (fun p => succeeds p = true) ps ->
      clock w' = Nat.max (clock w) (Remote.last_settlement ps)
      /\ in_flight w' = []
      /\ UI.error (ui w') = None)
  /\ (forall t,
         Remote.first_rejection ps = Some t ->
         (exists p, In p ps /\ succeeds p = false /\ settles_at p = t)
         /\ (forall p, In p ps -> succeeds p = false -> (t <= settles_at p)%nat)
         /\ clock w' = Nat.max (clock w) t
         /\ in_flight w' = filter (fun p => negb (settles_at p <=? t)%nat) ps
         /\ UI.error (ui w') = Some App.msg_archive).
Proof.
  intros Hready Hne Hconfirm Hhist Hget Hidle ids ps w'.
  subst w'. rewrite (archive_run env w hid) by assumption.
  assert (map (fun d => Remote.promise_of env (clock w) (fst d))
              (expensesCol (store w)) = ps) as ->
      by (unfold ps, ids; now rewrite map_map).
  assert (map (fun d => EvDeleteExpense (fst d)) (expensesCol (store w))
          = map EvDeleteExpense ids) as ->
      by (unfold ids; now rewrite map_map).
  unfold Remote.advance. rewrite Hidle.
  cbn [ui store trace fetches clock in_flight app].
  split; [reflexivity|].
  split; [now destruct (Remote.first_rejection ps)|].
  split.
  - intros Hok. rewrite (proj2 (first_rejection_None ps) Hok).
    split; [reflexivity|]. split; [|reflexivity].
    apply filter_none. intros p Hp.
    apply last_settlement_bounds, Nat.leb_le in Hp. now rewrite Hp.
  - intros t Ht. rewrite Ht.
    destruct (first_rejection_Some ps t Ht) as [Hex Hmin].
    repeat split; assumption.
Qed.

Lemma deletes_issued_together_witness :
  in_flight (App.run (App.handleResetAndArchive Scenario.env_partial)
                     Scenario.world_two)
  = [mkPending "b" 5 true]
  /\ clock (App.run (App.handleResetAndArchive Scenario.env_partial)
                    Scenario.world_two) = 1%nat.
Proof.
  destruct (deletes_issued_together_then_Promise_all
              Scenario.env_partial Scenario.world_two "h")
    as (_ & _ & _ & H).
  - reflexivity.
  - discriminate.
  - reflexivity.
  - reflexivity.
  - reflexivity.
  - reflexivity.
  - destruct (H 1%nat eq_refl) as (_ & _ & Hc & Hf & _).
    split; [exact Hf|exact Hc].
Defined.

(** C3, as stated, fails: with one delete rejected after one tick and
    another succeeding after five, the handler has completed while the
    second is still in flight. *)
Lemma completion_not_gated_on_all_deletes :
  ~ (forall env w,
        in_flight w = [] ->
        in_flight (App.run (App.handleResetAndArchive env) w) = []).
Proof.
  intros H.
  specialize (H Scenario.env_partial Scenario.world_two eq_refl).
  vm_compute in H. discriminate.
Qed.

(* ===================================================================== *)
(** ** Properties of the submission *)
(* ===================================================================== *)

(** A call of [fetchWithBackoff]: the attempts that fail are followed by
    a pause, and the outcome is that of the first attempt that does not
    fail, or of the last attempt allowed. *)
Lemma fetchWithBackoff_schedule (env : Env) (retries delay : nat) (w : World) :
  App.fetchWithBackoff env retries delay w
  = (attempt_outcome
       (fetch_outcome env (fetches w + failed_attempts env (fetches w) retries)),
     mkWorld (ui w) (store w)
             (trace w
                ++ backoff_schedule (failed_attempts env (fetches w) retries)
                                    delay)
             (fetches w + S (failed_attempts env (fetches w) retries))
             (clock w) (in_flight w)).
Proof.
  revert delay w. induction retries as [|retries IH]; intros delay w.
  - cbn [App.fetchWithBackoff failed_attempts backoff_schedule].
    rewrite Nat.add_0_r, Nat.add_1_r.
    unfold try_catch, bind, Remote.fetch, throw, ret.
    now destruct (fetch_outcome env (fetches w)) as [|[|] [body|]].
  - cbn [App.fetchWithBackoff failed_attempts].
    unfold try_catch at 1. unfold bind at 1. unfold Remote.fetch at 1.
    pose proof (IH (delay * 2)%nat
                   (mkWorld (ui w) (store w)
                            ((trace w ++ [EvFetch]) ++ [EvDelay delay])
                            (S (fetches w)) (clock w) (in_flight w))) as Hrec.
    cbn [ui store trace fetches clock in_flight] in Hrec.
    rewrite <- !app_assoc in Hrec. cbn [app] in Hrec.
    rewrite Nat.add_succ_l, <- Nat.add_succ_r in Hrec.
    rewrite (Nat.add_succ_l (fetches w)), <- (Nat.add_succ_r (fetches w)) in Hrec.
    destruct (fetch_outcome env (fetches w)) as [|[|] [body|]] eqn:E;
      cbn [attempt_fails negb orb fst snd backoff_schedule].
    2:{ rewrite Nat.add_0_r, Nat.add_1_r, E. reflexivity. }
    all: unfold throw; unfold bind, Remote.sleep, log;
      cbn [ui store trace fetches clock in_flight];
      rewrite <- ?app_assoc; cbn [app]; exact Hrec.
Qed.

Lemma failed_attempts_bound (env : Env) (start n : nat) :
  (failed_attempts env start n <= n)%nat.
Proof.
  revert start. induction n as [|n IH]; intros start; cbn; [lia|].
  destruct (attempt_fails (fetch_outcome env start)); [|lia].
  specialize (IH (S start)). lia.
Qed.

Lemma backoff_schedule_network (k delay : nat) :
  Forall (fun ev => is_network ev = true) (backoff_schedule k delay).
Proof.
  revert delay. induction k as [|k IH]; intros delay; cbn;
    repeat constructor. apply IH.
Qed.

(** What a classification call does and returns. *)
Lemma categorizeExpense_result (env : Env) (text : string) (w : World) :
  App.categorizeExpense env text w
  = (Fulfilled (classification_result env (fetches w)),
     mkWorld (ui w) (store w)
             (trace w ++ EvClassify text
                      :: backoff_schedule (failed_attempts env (fetches w) 3) 1000)
             (fetches w + S (failed_attempts env (fetches w) 3))
             (clock w) (in_flight w)).
Proof.
  unfold App.categorizeExpense, classification_result.
  unfold bind at 1. cbn [log]. unfold try_catch, bind.
  rewrite fetchWithBackoff_schedule.
  cbn [ui store trace fetches clock in_flight].
  rewrite <- app_assoc. cbn [app].
  destruct (fetch_outcome env (fetches w + failed_attempts env (fetches w) 3))
    as [|[|] [[|[t|]]|]]; cbn [attempt_outcome]; try reflexivity.
  destruct (JS.truthy t); [|reflexivity].
  now destruct (JSON_parse env t).
Qed.

(** A classification call always returns a value, after some traffic
    with the classification endpoint. *)
Lemma categorizeExpense_run (env : Env) (text : string) (w : World) :
  exists v evs n,
    Forall (fun ev => is_network ev = true) evs
    /\ App.categorizeExpense env text w
       = (Fulfilled v,
          mkWorld (ui w) (store w) (trace w ++ EvClassify text :: evs)
                  (fetches w + n) (clock w) (in_flight w)).
Proof.
  eexists. eexists. eexists.
  split; [|apply categorizeExpense_result].
  apply backoff_schedule_network.
Qed.

Ltac step_submit :=
  cbv beta iota zeta delta
      [try_catch_finally try_catch bind setState log throw ret
       Remote.addDoc_expenses Remote.updateDoc App.destructure
       App.handleCancelEdit getStore setStore negb orb];
  cbn [ui store trace fetches clock in_flight expensesCol historyCol
       snd fst].

Section Submission.
Variables (env : Env) (w : World) (numericAmount : Q).

(** The form passes the validation and the application is ready. *)
Hypothesis Hparse :
  JS.parseFloat (JS.strip_non_numeric (UI.amount (ui w))) = Some numericAmount.
Hypothesis Hpositive : 0 < numericAmount.
Hypothesis Hdescription : JS.trim (UI.description (ui w)) <> EmptyString.
Hypothesis Hready : UI.ready (ui w) = true.

Lemma validation_passes :
  Qeq_bool numericAmount 0 = false
  /\ Qle_bool numericAmount 0 = false
  /\ JS.truthy (JS.trim (UI.description (ui w))) = true.
Proof.
  repeat split.
  - destruct (Qeq_bool numericAmount 0) eqn:E; [|reflexivity].
    apply Qeq_bool_eq in E. lra.
  - destruct (Qle_bool numericAmount 0) eqn:E; [|reflexivity].
    apply Qle_bool_iff in E. lra.
  - destruct (JS.trim (UI.description (ui w))); [contradiction|reflexivity].
Qed.

(** A new submission. *)
Lemma submit_new_run :
  UI.isEditing (ui w) = false ->
  exists v evs n,
    Forall (fun ev => is_network ev = true) evs
    /\ App.run (App.handleSubmit env) w
       = match v with
         | PNull =>
             mkWorld (failed (ui w)) (store w)
                     (trace w ++ EvClassify (UI.description (ui w)) :: evs)
                     (fetches w + n) (clock w) (in_flight w)
         | PValue c k =>
             let newExpense :=
               Doc.mk numericAmount (JS.trim (UI.description (ui w))) c k (Some (now env)) in
             match addDoc_expense_outcome env with
             | Some i =>
                 mkWorld (UI.setIsLoading false
                            (UI.setDescription EmptyString
                               (UI.setAmount EmptyString (loading (ui w)))))
                         (mkBackend (expensesCol (store w) ++ [(i, newExpense)])
                                    (historyCol (store w)))
                         (trace w ++ EvClassify (UI.description (ui w)) :: evs
                                  ++ [EvAddExpense newExpense])
                         (fetches w + n) (clock w) (in_flight w)
             | None =>
                 mkWorld (failed (ui w)) (store w)
                         (trace w ++ EvClassify (UI.description (ui w)) :: evs
                                  ++ [EvAddExpense newExpense])
                         (fetches w + n) (clock w) (in_flight w)
             end
         end.
Proof.
  intros Hnew.
  destruct validation_passes as (H0 & Hle & Htr).
  unfold App.run, App.handleSubmit.
  rewrite Hparse, H0, Hle, Htr, Hready, Hnew.
  step_submit.
  destruct (categorizeExpense_run
              env (UI.description (ui w))
              (mkWorld (UI.setError None (UI.setIsLoading true (ui w)))
                       (store w) (trace w) (fetches w) (clock w)
                       (in_flight w)))
    as (v & evs & n & Hnet & Hrun).
  cbn [ui store trace fetches clock in_flight] in Hrun.
  rewrite Hrun.
  exists v, evs, n. split; [assumption|].
  destruct v as [|c k]; step_submit; [reflexivity|].
  destruct (addDoc_expense_outcome env) as [i|]; step_submit;
    rewrite <- app_assoc; reflexivity.
Qed.

(** An edit: what it adds to the trace. *)
Lemma submit_edit_trace :
  UI.isEditing (ui w) = true ->
  exists v evs,
    Forall (fun ev => is_network ev = true) evs
    /\ trace (App.run (App.handleSubmit env) w)
       = trace w
           ++ if String.eqb (JS.trim (UI.description (ui w)))
                            (UI.editingOriginalDescription (ui w))
              then [EvUpdateExpense
                      (UI.editingExpenseId (ui w))
                      (Fields.mk numericAmount (JS.trim (UI.description (ui w))) None)]
              else EvClassify (UI.description (ui w)) :: evs
                     ++ match v with
                        | PNull => []
                        | PValue c k =>
                            [EvUpdateExpense
                               (UI.editingExpenseId (ui w))
                               (Fields.mk numericAmount (JS.trim (UI.description (ui w)))
                                          (Some (c, k)))]
                        end.
Proof.
  intros Hedit.
  destruct validation_passes as (H0 & Hle & Htr).
  unfold App.run, App.handleSubmit.
  rewrite Hparse, H0, Hle, Htr, Hready, Hedit.
  step_submit.
  destruct (categorizeExpense_run
              env (UI.description (ui w))
              (mkWorld (UI.setError None (UI.setIsLoading true (ui w)))
                       (store w) (trace w) (fetches w) (clock w)
                       (in_flight w)))
    as (v & evs & n & Hnet & Hrun).
  cbn [ui store trace fetches clock in_flight] in Hrun.
  exists v, evs. split; [assumption|].
  destruct (String.eqb (JS.trim (UI.description (ui w)))
                       (UI.editingOriginalDescription (ui w))).
  - step_submit.
    destruct (UI.editingExpenseId (ui w)) as [i|]; step_submit;
      [|reflexivity].
    destruct (updateDoc_ok env && Remote.has_doc i (store w));
      step_submit; reflexivity.
  - step_submit. rewrite Hrun.
    destruct v as [|c k]; step_submit;
      [now rewrite app_nil_r|].
    destruct (UI.editingExpenseId (ui w)) as [i|]; step_submit;
      [|now rewrite <- app_assoc].
    destruct (updateDoc_ok env && Remote.has_doc i (store w));
      step_submit; now rewrite <- app_assoc.
Qed.

End Submission.

Section TraceFacts.

Lemma classify_calls_app (l1 l2 : list Event) :
  classify_calls (l1 ++ l2) = (classify_calls l1 + classify_calls l2)%nat.
Proof. unfold classify_calls. now rewrite filter_app, length_app. Qed.

Lemma classify_calls_network (evs : list Event) :
  Forall (fun ev => is_network ev = true) evs -> classify_calls evs = 0%nat.
Proof.
  unfold classify_calls.
  induction 1 as [|ev evs Hev _ IH]; [reflexivity|].
  destruct ev; try discriminate; exact IH.
Qed.

Lemma writes_network (evs : list Event) :
  Forall (fun ev => is_network ev = true) evs -> filter is_write evs = [].
Proof.
  induction 1 as [|ev evs Hev _ IH]; [reflexivity|].
  destruct ev; try discriminate; exact IH.
Qed.

Lemma network_writes_nothing (evs : list Event) (q : Q) :
  Forall (fun ev => is_network ev = true) evs ->
  Forall (fun ev => forall a, written_amount ev = Some a -> a = q) evs.
Proof.
  intros H. eapply Forall_impl; [|exact H].
  intros ev Hev a. destruct ev; discriminate.
Qed.

End TraceFacts.

Section TrimFacts.

Lemma trimEnd_idempotent (s : string) : JS.trimEnd (JS.trimEnd s) = JS.trimEnd s.
Proof.
  induction s as [|c r IH]; [reflexivity|]. cbn [JS.trimEnd].
  destruct (JS.trimEnd r) as [|c' r'] eqn:E.
  - destruct (JS.is_white_space c) eqn:Ec; [reflexivity|].
    cbn [JS.trimEnd]. now rewrite Ec.
  - cbn [JS.trimEnd] in *. now rewrite IH.
Qed.

Lemma trimEnd_head (c : ascii) (r : string) :
  JS.is_white_space c = false ->
  exists r', JS.trimEnd (String c r) = String c r'.
Proof.
  intros Hc. cbn [JS.trimEnd].
  destruct (JS.trimEnd r); [rewrite Hc|]; eauto.
Qed.

Lemma trimStart_head (s : string) :
  JS.trimStart s = EmptyString
  \/ exists c r, JS.trimStart s = String c r /\ JS.is_white_space c = false.
Proof.
  induction s as [|c r IH]; [now left|]. cbn [JS.trimStart].
  destruct (JS.is_white_space c) eqn:E; [exact IH|]. right. eauto.
Qed.

(** What the handler stores as a description is left alone by [trim]. *)
Lemma trim_idempotent (s : string) : JS.trim (JS.trim s) = JS.trim s.
Proof.
  unfold JS.trim.
  destruct (trimStart_head s) as [->|(c & r & -> & Hc)]; [reflexivity|].
  destruct (trimEnd_head c r Hc) as (r' & E).
  rewrite E at 1. cbn [JS.trimStart]. rewrite Hc, <- E.
  apply trimEnd_idempotent.
Qed.

End TrimFacts.

Section ParseFacts.

Lemma span_digits_nonneg (s : string) :
  Forall (fun d => 0 <= d)%Z (fst (JS.span_digits s)).
Proof.
  induction s as [|c r IH]; cbn [JS.span_digits]; [constructor|].
  destruct (JS.is_digit c) eqn:E; [|constructor].
  destruct (JS.span_digits r) as [ds rest]. cbn [fst] in *.
  constructor; [|assumption].
  unfold JS.is_digit in E. apply andb_prop in E as [E _].
  apply N.leb_le in E. unfold JS.digit_value. lia.
Qed.

Lemma digits_value_nonneg (ds : list Z) :
  Forall (fun d => 0 <= d)%Z ds -> (0 <= JS.digits_value ds)%Z.
Proof.
  unfold JS.digits_value.
  assert (forall acc, (0 <= acc)%Z -> Forall (fun d => 0 <= d)%Z ds ->
                      (0 <= fold_left (fun acc d => 10 * acc + d) ds acc)%Z)
    as H; [|now apply H].
  induction ds as [|d ds IH]; intros acc Hacc Hds; cbn [fold_left];
    [assumption|].
  inversion Hds; subst. apply IH; [lia|assumption].
Qed.

(** A parsed amount is never negative: a sign does not survive
    [strip_non_numeric]. *)
Lemma parseFloat_nonneg (s : string) (q : Q) :
  JS.parseFloat s = Some q -> 0 <= q.
Proof.
  unfold JS.parseFloat.
  pose proof (span_digits_nonneg s) as Hip.
  destruct (JS.span_digits s) as [ip rest]. cbn [fst] in Hip.
  set (fp := match rest with
             | String "." r => fst (JS.span_digits r)
             | _ => []
             end).
  assert (Forall (fun d => 0 <= d)%Z fp) as Hfp.
  { unfold fp. destruct rest as [|c r]; [constructor|].
    destruct (Ascii.eqb_spec c ".") as [->|Hc].
    - apply span_digits_nonneg.
    - destruct c as [[] [] [] [] [] [] [] []]; try constructor.
      contradiction Hc. reflexivity. }
  assert (0 <= inject_Z (JS.digits_value ip)
               + inject_Z (JS.digits_value fp)
                 / inject_Z (10 ^ Z.of_nat (List.length fp))) as Hq.
  { assert (0 <= inject_Z (JS.digits_value ip))
      by (rewrite <- (Zle_Qle 0); now apply digits_value_nonneg).
    assert (0 <= inject_Z (JS.digits_value fp))
      by (rewrite <- (Zle_Qle 0); now apply digits_value_nonneg).
    assert (0 < inject_Z (10 ^ Z.of_nat (List.length fp)))
      by (rewrite <- (Zlt_Qlt 0); apply Z.pow_pos_nonneg; lia).
    assert (0 <= inject_Z (JS.digits_value fp)
                 / inject_Z (10 ^ Z.of_nat (List.length fp)))
      by (apply Qle_shift_div_l; [assumption|lra]).
    lra. }
  destruct ip, fp; try discriminate; intros [= <-]; exact Hq.
Qed.

End ParseFacts.

(** C7. An expense is opened for editing, the two fields are changed to
    any values that pass the validation, and the form is submitted: the
    classification is called once when the trimmed description differs
    from the description the expense had when edit mode was entered, and
    not at all otherwise.  In particular an edit that leaves the
    description of an expense stored by this handler (a trimmed text) as
    it was calls no classification, and an edit whose trimmed description
    differs calls exactly one. *)
Theorem edit_reclassifies_iff_description_changed
        (env : Env) (w : World) (expense : Expense)
        (newAmount newDescription : string) (numericAmount : Q) :
  JS.parseFloat (JS.strip_non_numeric newAmount) = Some numericAmount ->
  0 < numericAmount ->
  JS.trim newDescription <> EmptyString ->
  UI.ready (ui w) = true ->
  let editing :=
    typed newAmount newDescription
          (App.run (fun _ => App.handleEditClick env expense) w) in
  let w' := App.run (App.handleSubmit env) editing in
  classify_calls (trace w')
  = (classify_calls (trace w)
     + if String.eqb (JS.trim newDescription) (description expense)
       then 0 else 1)%nat
  /\ (newDescription = description expense ->
      JS.trim (description expense) = description expense ->
      classify_calls (trace w') = classify_calls (trace w))
  /\ (JS.trim newDescription <> description expense ->
      classify_calls (trace w') = S (classify_calls (trace w))).
Proof.
  intros Hparse Hpos Hdesc Hready editing w'.
  assert (classify_calls (trace w')
          = (classify_calls (trace w)
             + if String.eqb (JS.trim newDescription) (description expense)
               then 0 else 1)%nat) as Hcount.
  { destruct (submit_edit_trace env editing numericAmount)
      as (v & evs & Hnet & Htrace); try assumption; try reflexivity.
    subst w'. rewrite Htrace. rewrite classify_calls_app.
    change (trace editing) with (trace w).
    change (UI.description (ui editing)) with newDescription.
    change (UI.editingOriginalDescription (ui editing))
      with (description expense).
    f_equal.
    destruct (String.eqb (JS.trim newDescription) (description expense));
      [reflexivity|].
    change (EvClassify newDescription :: evs ++ ?t)
      with ([EvClassify newDescription] ++ evs ++ t).
    rewrite !classify_calls_app, (classify_calls_network evs Hnet).
    now destruct v. }
  split; [exact Hcount|]. split.
  - intros -> Hfix. rewrite Hcount, Hfix, String.eqb_refl. lia.
  - intros Hne. rewrite Hcount.
    destruct (String.eqb_spec (JS.trim newDescription) (description expense));
      [contradiction|lia].
Qed.

Lemma edit_reclassifies_witness :
  classify_calls
    (trace (App.run (App.handleSubmit Scenario.env_ok)
                    (typed "120" "almuerzo"
                           (App.run (fun _ => App.handleEditClick
                                                Scenario.env_ok Scenario.almuerzo)
                                    Scenario.world_two))))
  = 0%nat
  /\ classify_calls
       (trace (App.run (App.handleSubmit Scenario.env_ok)
                       (typed "100" "cena"
                              (App.run (fun _ => App.handleEditClick
                                                   Scenario.env_ok Scenario.almuerzo)
                                       Scenario.world_two))))
     = 1%nat.
Proof.
  split.
  - apply (edit_reclassifies_iff_description_changed
             Scenario.env_ok Scenario.world_two Scenario.almuerzo
             "120" "almuerzo" 120);
      [reflexivity|reflexivity|discriminate|reflexivity
      |reflexivity|reflexivity].
  - apply (edit_reclassifies_iff_description_changed
             Scenario.env_ok Scenario.world_two Scenario.almuerzo
             "100" "cena" 100);
      [reflexivity|reflexivity|discriminate|reflexivity|discriminate].
Defined.

(** C8. A new submission of "pan" for 5, when the classification
    service answers 200 with the text [null]: [JSON.parse] gives [null],
    [categorizeExpense] returns it as the labels, the destructuring in
    [handleSubmit] throws, and the submission is aborted: one
    classification call, no write, the store as it was, the processing
    error on screen.  When the text is [{}], the one write attempted
    carries neither category nor classification.  When the service is
    unreachable and the retries are exhausted, the expense is created
    with "No Categorizado" and "Manual". *)
Theorem malformed_payload_aborts_submission :
  let w := typed "5" "pan" Scenario.world_two in
  let aborted := App.run (App.handleSubmit Scenario.env_null) w in
  let unlabelled := App.run (App.handleSubmit Scenario.env_no_labels) w in
  let offline := App.run (App.handleSubmit Scenario.env_offline) w in
  UI.isEditing (ui w) = false
  /\ classify_calls (trace aborted) = 1%nat
  /\ filter is_write (trace aborted) = []
  /\ store aborted = store w
  /\ UI.error (ui aborted) = Some App.msg_process
  /\ filter is_write (trace unlabelled)
     = [ EvAddExpense (Doc.mk 5 "pan" None None (Some 1000%Z)) ]
  /\ filter is_write (trace offline)
     = [ EvAddExpense (Doc.mk 5 "pan" (Some "No Categorizado"%string)
                              (Some "Manual"%string) (Some 1000%Z)) ]
  /\ expensesCol (store offline)
     = expensesCol (store w)
         ++ [ ("c"%string,
               Doc.mk 5 "pan" (Some "No Categorizado"%string)
                      (Some "Manual"%string) (Some 1000%Z)) ]
  /\ UI.error (ui offline) = None.
Proof. cbv zeta. repeat split. Qed.

(** C9. Whatever the amount field holds, the handler either stops at the
    validation, before any remote call, or goes on with a strictly
    positive amount, which is the amount of every write it makes.  The
    amount is read after removing every character other than a digit or
    a dot, so a minus sign is dropped and never makes the amount
    negative: "-50" is accepted and the expense is created with amount
    50. *)
Theorem validation_blocks_or_positive :
  (forall env w,
      let w' := App.run (App.handleSubmit env) w in
      (trace w' = trace w /\ store w' = store w
       /\ UI.error (ui w') = Some App.msg_invalid)
      \/ (exists numericAmount evs,
             JS.parseFloat (JS.strip_non_numeric (UI.amount (ui w)))
             = Some numericAmount
             /\ 0 < numericAmount
             /\ trace w' = trace w ++ evs
             /\ Forall (fun ev => forall a, written_amount ev = Some a ->
                                            a = numericAmount) evs))
  /\ (forall s, JS.strip_non_numeric (String "-" s) = JS.strip_non_numeric s)
  /\ (forall s q, JS.parseFloat (JS.strip_non_numeric s) = Some q -> 0 <= q)
  /\ JS.parseFloat (JS.strip_non_numeric "-50") = Some 50
  /\ trace (App.run (App.handleSubmit Scenario.env_ok)
                    (typed "-50" "cafe" Scenario.world_empty))
     = [ EvClassify "cafe"; EvFetch;
         EvAddExpense (Doc.mk 50 "cafe" (Some "Comida"%string)
                              (Some "Cafe"%string) (Some 1000%Z)) ].
Proof.
  split; [|split; [reflexivity|split; [|split; reflexivity]]].
  2:{ intros s q. apply parseFloat_nonneg. }
  intros env w w'.
  destruct (JS.parseFloat (JS.strip_non_numeric (UI.amount (ui w))))
    as [q|] eqn:Hparse.
  2:{ left. subst w'. unfold App.run, App.handleSubmit. rewrite Hparse.
      repeat split. }
  destruct (Qeq_bool q 0 || Qle_bool q 0
            || negb (JS.truthy (JS.trim (UI.description (ui w))))) eqn:Hv.
  { left. subst w'. unfold App.run, App.handleSubmit. rewrite Hparse, Hv.
    repeat split. }
  apply orb_false_elim in Hv as [Hv Htr].
  apply orb_false_elim in Hv as [H0 Hle].
  assert (0 < q) as Hpos.
  { destruct (Qlt_le_dec 0 q) as [|Hq]; [assumption|].
    apply Qle_bool_iff in Hq. congruence. }
  assert (JS.trim (UI.description (ui w)) <> EmptyString) as Hdesc.
  { intros E. rewrite E in Htr. discriminate. }
  right. exists q.
  destruct (UI.ready (ui w)) eqn:Hready.
  2:{ exists []. subst w'. unfold App.run, App.handleSubmit.
      rewrite Hparse, H0, Hle, Htr, Hready. cbn [orb negb].
      repeat split; [assumption|now rewrite app_nil_r|constructor]. }
  destruct (UI.isEditing (ui w)) eqn:Hedit.
  - destruct (submit_edit_trace env w q Hparse Hpos Hdesc Hready Hedit)
      as (v & evs & Hnet & Htrace).
    eexists. split; [reflexivity|]. split; [assumption|].
    split; [exact Htrace|].
    destruct (String.eqb _ _).
    + repeat constructor. now intros a [= <-].
    + constructor; [discriminate|].
      apply Forall_app. split; [now apply network_writes_nothing|].
      destruct v; repeat constructor. now intros a [= <-].
  - destruct (submit_new_run env w q Hparse Hpos Hdesc Hready Hedit)
      as (v & evs & n & Hnet & Hrun).
    subst w'. rewrite Hrun.
    destruct v as [|c k].
    + eexists. split; [reflexivity|]. split; [assumption|].
      split; [reflexivity|].
      constructor; [discriminate|]. now apply network_writes_nothing.
    + exists (EvClassify (UI.description (ui w))
                :: evs ++ [EvAddExpense
                             (Doc.mk q (JS.trim (UI.description (ui w))) c k
                                     (Some (now env)))]).
      split; [reflexivity|]. split; [assumption|].
      split; [now destruct (addDoc_expense_outcome env)|].
      constructor; [discriminate|].
      apply Forall_app. split; [now apply network_writes_nothing|].
      repeat constructor. now intros a [= <-].
Qed.

Lemma validation_blocks_or_positive_witness : 0 <= 50.
Proof.
  exact (proj1 (proj2 (proj2 validation_blocks_or_positive))
               "-50"%string 50 eq_refl).
Defined.

(** A payload whose text is the JSON [null] is returned by
    [categorizeExpense] as it is; the destructuring in [handleSubmit]
    throws, nothing is written and the processing error is shown. *)
Remark null_payload_aborts_submission (env : Env) (w : World) (q : Q) (t : string) :
  UI.isEditing (ui w) = false ->
  JS.parseFloat (JS.strip_non_numeric (UI.amount (ui w))) = Some q ->
  0 < q ->
  JS.trim (UI.description (ui w)) <> EmptyString ->
  UI.ready (ui w) = true ->
  fetch_outcome env (fetches w) = Scenario.answer t ->
  JS.truthy t = true ->
  JSON_parse env t = Some PNull ->
  let w' := App.run (App.handleSubmit env) w in
  trace w' = trace w ++ [EvClassify (UI.description (ui w)); EvFetch]
  /\ store w' = store w
  /\ UI.error (ui w') = Some App.msg_process.
Proof.
  intros Hnew Hparse Hpos Hdesc Hready Hfetch Ht Hjson w'.
  destruct (validation_passes w q Hpos Hdesc) as (H0 & Hle & Htr).
  subst w'. unfold App.run, App.handleSubmit.
  rewrite Hparse, H0, Hle, Htr, Hready, Hnew.
  step_submit. unfold App.categorizeExpense.
  step_submit. cbn [App.fetchWithBackoff].
  step_submit. unfold Remote.fetch.
  cbn [ui store trace fetches clock in_flight].
  rewrite Hfetch. unfold Scenario.answer.
  step_submit. rewrite Ht, Hjson. step_submit.
  rewrite <- app_assoc. repeat split.
Qed.

(* ===================================================================== *)
(** ** More on the aggregation *)
(* ===================================================================== *)

(** Every entry of [categoryData] stands for a label of the input other
    than [__proto__].  For a label that names no member of
    [Object.prototype] the total is the sum of the amounts filed under
    the label and the percentage is that total's share of [totalSpent].
    For a label that names one, the total is a text, that of the member
    followed by the amounts filed under the label in the order of the
    list, and the percentage is [NaN].  When [totalSpent] is not
    positive every percentage is 0. *)
Theorem entry_total_is_group_total
        (expenses : list Expense) (x : CategorySummaryEntry) :
  In x (Aggregation.categoryData expenses) ->
  entry_category x <> "__proto__"%string
  /\ (exists e, In e expenses /\ Aggregation.category_of e = entry_category x)
  /\ (JS.inherited (entry_category x) = false ->
      exists q,
        total x = JS.Num q
        /\ q == group_total (entry_category x) expenses
        /\ (0 < Aggregation.totalSpent expenses ->
            percentage x
            = Some (q / Aggregation.totalSpent expenses * 100)))
  /\ (JS.inherited (entry_category x) = true ->
      total x = JS.Str (entry_category x)
                       (group_amounts (entry_category x) expenses)
      /\ group_amounts (entry_category x) expenses <> []
      /\ (0 < Aggregation.totalSpent expenses -> percentage x = None))
  /\ (Aggregation.totalSpent expenses <= 0 -> percentage x = Some 0).
Proof.
  intros Hx. destruct (entry_shape expenses x Hx) as (Hk & Ht & Hp).
  pose proof (proj1 (totals_of_keys expenses _) Hk) as (Hne & He).
  unfold Aggregation.percentage_of in Hp.
  split; [exact Hne|]. split; [exact He|]. split; [|split].
  - intros Hin.
    destruct (get_totals_ordinary expenses _ Hin Hk) as (q & Hq & Hg).
    rewrite <- Ht in Hq. exists q. split; [exact Hq|]. split; [exact Hg|].
    intros HT. rewrite Hp, Hq.
    destruct (Qlt_le_dec 0 (Aggregation.totalSpent expenses));
      [reflexivity|lra].
  - intros Hin.
    destruct (get_totals_member expenses _ Hin Hk) as (Hs & Hg).
    rewrite <- Ht in Hs. split; [exact Hs|]. split; [exact Hg|].
    intros HT. rewrite Hp, Hs.
    destruct (Qlt_le_dec 0 (Aggregation.totalSpent expenses));
      [reflexivity|lra].
  - intros HT. rewrite Hp.
    destruct (Qlt_le_dec 0 (Aggregation.totalSpent expenses));
      [lra|reflexivity].
Qed.

Lemma entry_total_is_group_total_witness :
  (exists q,
      JS.Num 100 = JS.Num q
      /\ q == group_total "Comida" Scenario.two_expenses
      /\ (0 < Aggregation.totalSpent Scenario.two_expenses ->
          Some (10000 # 150)
          = Some (q / Aggregation.totalSpent Scenario.two_expenses * 100)))
  /\ JS.Str "constructor" [5]
     = JS.Str "constructor" (group_amounts "constructor" Scenario.mixed_labels).
Proof.
  split.
  - apply (entry_total_is_group_total
             Scenario.two_expenses
             (mkEntry "Comida" (JS.Num 100) (Some (10000 # 150))));
      [now left|reflexivity].
  - apply (entry_total_is_group_total
             Scenario.mixed_labels
             (mkEntry "constructor" (JS.Str "constructor" [5]) None));
      [right; now left|reflexivity].
Defined.

(** The aggregation does not depend on the order of the expenses: a
    reordered list gives the same [totalSpent], the same labels, and for
    each label that names no member of [Object.prototype] the same
    total and percentage. *)
Theorem aggregation_ignores_order (expenses expenses' : list Expense) :
  Permutation expenses expenses' ->
  Aggregation.totalSpent expenses == Aggregation.totalSpent expenses'
  /\ Permutation (map entry_category (Aggregation.categoryData expenses))
                 (map entry_category (Aggregation.categoryData expenses'))
  /\ (forall x y,
         In x (Aggregation.categoryData expenses) ->
         In y (Aggregation.categoryData expenses') ->
         entry_category x = entry_category y ->
         JS.inherited (entry_category x) = false ->
         exists tx ty px py,
           total x = JS.Num tx /\ total y = JS.Num ty /\ tx == ty
           /\ percentage x = Some px /\ percentage y = Some py /\ px == py).
Proof.
  intros Hperm.
  assert (Aggregation.totalSpent expenses == Aggregation.totalSpent expenses')
    as HT.
  { rewrite !totalSpent_sum. apply Qsum_perm. now apply Permutation_map. }
  split; [exact HT|]. split.
  - rewrite !categoryData_categories.
    apply NoDup_Permutation; try apply totals_of_NoDup.
    intros k. rewrite !totals_of_keys.
    split; intros (Hne & e & He & E); (split; [assumption|]);
      exists e; split; try assumption.
    + now apply (Permutation_in _ Hperm).
    + now apply (Permutation_in _ (Permutation_sym Hperm)).
  - intros x y Hx Hy Exy Hin.
    destruct (entry_shape _ _ Hx) as (_ & _ & Hpx).
    destruct (entry_shape _ _ Hy) as (_ & _ & Hpy).
    destruct (ordinary_entry _ _ Hx Hin) as (tx & Htx & Hgx).
    rewrite Exy in Hin.
    destruct (ordinary_entry _ _ Hy Hin) as (ty & Hty & Hgy).
    assert (tx == ty) as Hxy.
    { rewrite Hgx, Hgy, Exy. now apply group_total_perm. }
    unfold Aggregation.percentage_of in Hpx, Hpy.
    rewrite Htx in Hpx. rewrite Hty in Hpy. cbn [JS.toNumber option_map] in *.
    exists tx, ty.
    destruct (Qlt_le_dec 0 (Aggregation.totalSpent expenses)),
             (Qlt_le_dec 0 (Aggregation.totalSpent expenses'));
      try lra; eexists; eexists;
      (split; [exact Htx|]); (split; [exact Hty|]); (split; [exact Hxy|]);
      (split; [exact Hpx|]); (split; [exact Hpy|]).
    + now rewrite Hxy, HT.
    + reflexivity.
Qed.

Lemma aggregation_ignores_order_witness :
  Aggregation.totalSpent Scenario.two_expenses
  == Aggregation.totalSpent (rev Scenario.two_expenses)
  /\ exists tx ty px py,
      JS.Num 50 = JS.Num tx /\ JS.Num 50 = JS.Num ty /\ tx == ty
      /\ Some (5000 # 150) = Some px /\ Some (5000 # 150) = Some py
      /\ px == py.
Proof.
  pose proof (aggregation_ignores_order
                Scenario.two_expenses (rev Scenario.two_expenses)
                (Permutation_rev _)) as (HT & _ & H).
  split; [exact HT|].
  apply (H (mkEntry "Otros" (JS.Num 50) (Some (5000 # 150)))
           (mkEntry "Otros" (JS.Num 50) (Some (5000 # 150))));
    [right; now left|right; now left|reflexivity|reflexivity].
Defined.

(** There is no breakdown exactly when every expense, if there is one,
    is filed under [__proto__]; with labels that name no member of
    [Object.prototype] that is when there is no expense.  There are
    never more entries than expenses. *)
Theorem categoryData_empty_iff (expenses : list Expense) :
  (Aggregation.categoryData expenses = []
   <-> Forall (fun e => Aggregation.category_of e = "__proto__"%string)
              expenses)
  /\ (ordinary_labels expenses ->
      (Aggregation.categoryData expenses = [] <-> expenses = []))
  /\ (List.length (Aggregation.categoryData expenses)
      <= List.length expenses)%nat.
Proof.
  pose proof (categoryData_categories expenses) as Hcat.
  assert (Aggregation.categoryData expenses = []
          <-> Forall (fun e => Aggregation.category_of e = "__proto__"%string)
                     expenses) as Hiff.
  { split.
    - intros E. rewrite E in Hcat. apply Permutation_nil in Hcat.
      apply Forall_forall. intros e He.
      destruct (string_dec (Aggregation.category_of e) "__proto__")
        as [|Hne]; [assumption|exfalso].
      assert (In (Aggregation.category_of e)
                 (keys (Aggregation.totals_of expenses))) as Hk
          by (apply totals_of_keys; split; [assumption|now exists e]).
      rewrite Hcat in Hk. exact Hk.
    - intros Hall. rewrite Forall_forall in Hall.
      destruct (keys (Aggregation.totals_of expenses)) as [|k l] eqn:Ek.
      + apply Permutation_sym, Permutation_nil in Hcat.
        now apply map_eq_nil in Hcat.
      + exfalso.
        assert (In k (keys (Aggregation.totals_of expenses))) as Hk
            by (rewrite Ek; now left).
        apply totals_of_keys in Hk as (Hne & e & He & E).
        apply Hne. rewrite <- E. now apply Hall. }
  split; [exact Hiff|]. split.
  - intros Hord. rewrite Hiff. split; [|intros ->; constructor].
    intros Hall. destruct expenses as [|e es]; [reflexivity|exfalso].
    inversion Hall as [|? ? He _]; subst.
    inversion Hord as [|? ? Hin _]; subst.
    rewrite He in Hin. discriminate.
  - rewrite <- (length_map entry_category),
            <- (length_map Aggregation.category_of expenses).
    apply NoDup_incl_length.
    + eapply Permutation_NoDup; [symmetry; exact Hcat|apply totals_of_NoDup].
    + intros k Hk. apply (Permutation_in _ Hcat) in Hk.
      apply totals_of_keys in Hk as (_ & e & He & <-).
      now apply in_map.
Qed.

(* ===================================================================== *)
(** ** More on the listener and on the classification call *)
(* ===================================================================== *)

(** The list handed to [setExpenses] is ordered newest first and holds
    one expense per document of the snapshot, with the document's id,
    amount, description and classification, the document's category, or
    "No Categorizado" when the document has none or an empty one (so
    that the category is never empty), and the current time as date
    when the document has no timestamp. *)
Theorem listener_newest_first (env : Env) (docs : list (string * Doc.t)) :
  StronglySorted (fun a b => (date b <= date a)%Z)
                 (App.fetchedExpenses env docs)
  /\ Permutation (map id (App.fetchedExpenses env docs)) (map fst docs)
  /\ (forall e,
         In e (App.fetchedExpenses env docs) ->
         (exists c, category e = Some c /\ c <> EmptyString)
         /\ exists d,
             In (id e, d) docs
             /\ amount e = Doc.amount d
             /\ description e = Doc.description d
             /\ classification e = Doc.classification d
             /\ date e = match Doc.timestamp d with
                         | Some t => t
                         | None => now env
                         end
             /\ category e
                = Some (match Doc.category d with
                        | Some c => if String.eqb c EmptyString
                                    then "No Categorizado"%string else c
                        | None => "No Categorizado"%string
                        end)).
Proof.
  unfold App.fetchedExpenses.
  split; [|split].
  - apply Array_sort_sorted.
    + intros x y z Hxy Hyz. lia.
    + intros x y H. apply Qle_bool_iff in H.
      change 0 with (inject_Z 0) in H. rewrite <- Zle_Qle in H. lia.
    + intros x y H.
      destruct (Z_le_gt_dec (date y) (date x)) as [Hle|Hgt]; [|lia].
      assert (Qle_bool (inject_Z (date y - date x)) 0 = true) as E.
      { apply Qle_bool_iff. change 0 with (inject_Z 0).
        rewrite <- Zle_Qle. lia. }
      congruence.
  - rewrite (Permutation_map id (Array_sort_perm _ _)).
    rewrite map_map. reflexivity.
  - intros e He. apply (Permutation_in _ (Array_sort_perm _ _)) in He.
    apply in_map_iff in He as ([i d] & <- & Hd). cbn.
    split.
    + eexists. split; [reflexivity|].
      unfold JS.string_or, Aggregation.NoCategorizado.
      destruct (Doc.category d) as [[|c s]|]; cbn; discriminate.
    + exists d. repeat split; [assumption|].
      unfold JS.string_or, Aggregation.NoCategorizado.
      now destruct (Doc.category d) as [[|c s]|].
Qed.

Lemma backoff_schedule_waited (k delay : nat) :
  waited (backoff_schedule k delay) = (delay * (2 ^ k - 1))%nat.
Proof.
  revert delay. induction k as [|k IH]; intros delay; cbn [backoff_schedule waited].
  - cbn. lia.
  - rewrite IH. rewrite Nat.pow_succ_r'.
    assert (1 <= 2 ^ k)%nat by (apply Nat.neq_0_lt_0, Nat.pow_nonzero; lia).
    nia.
Qed.

Lemma backoff_schedule_fetches (k delay : nat) :
  List.length (filter (fun ev => match ev with EvFetch => true | _ => false end)
                      (backoff_schedule k delay)) = S k.
Proof.
  revert delay. induction k as [|k IH]; intros delay; cbn; [reflexivity|].
  now rewrite IH.
Qed.

(** [fetchWithBackoff] with [retries] retries makes at most [retries + 1]
    requests, stops at the first one that gives a body, pauses only
    after a failed one, [delay] milliseconds doubled each time, and
    touches neither the store nor the interface; what it returns or
    throws is what its last request gave. *)
Theorem fetchWithBackoff_bounded (env : Env) (retries delay : nat) (w : World) :
  exists k,
    (k <= retries)%nat
    /\ (forall j, (j < k)%nat ->
                  attempt_fails (fetch_outcome env (fetches w + j)) = true)
    /\ (k < retries ->
        attempt_fails (fetch_outcome env (fetches w + k)) = false)%nat
    /\ fst (App.fetchWithBackoff env retries delay w)
       = attempt_outcome (fetch_outcome env (fetches w + k))
    /\ let w' := snd (App.fetchWithBackoff env retries delay w) in
       trace w' = trace w ++ backoff_schedule k delay
       /\ fetches w' = (fetches w + S k)%nat
       /\ waited (backoff_schedule k delay) = (delay * (2 ^ k - 1))%nat
       /\ ui w' = ui w /\ store w' = store w
       /\ clock w' = clock w /\ in_flight w' = in_flight w.
Proof.
  exists (failed_attempts env (fetches w) retries).
  rewrite fetchWithBackoff_schedule. cbn [fst snd ui store trace fetches clock in_flight].
  split; [apply failed_attempts_bound|].
  split; [|split; [|split; [reflexivity|]]].
  - generalize (fetches w) as start.
    induction retries as [|retries IH]; intros start j; cbn; [lia|].
    destruct (attempt_fails (fetch_outcome env start)) eqn:E; [|lia].
    destruct j as [|j]; intros Hj.
    + now rewrite Nat.add_0_r.
    + rewrite <- Nat.add_succ_comm. apply IH. lia.
  - generalize (fetches w) as start.
    induction retries as [|retries IH]; intros start; cbn; [lia|].
    destruct (attempt_fails (fetch_outcome env start)) eqn:E.
    + intros Hk. rewrite <- Nat.add_succ_comm. apply IH. lia.
    + intros _. now rewrite Nat.add_0_r.
  - repeat split. apply backoff_schedule_waited.
Qed.


(* ===================================================================== *)
(** ** More on the submission *)
(* ===================================================================== *)

(** Runs [handleSubmit] up to the point where the form has passed the
    validation and the application is ready. *)
Ltac submit_start w q Hparse Hpos Hdesc Hready :=
  let H0 := fresh "H0" in
  let Hle := fresh "Hle" in
  let Htr := fresh "Htr" in
  destruct (validation_passes w q Hpos Hdesc) as (H0 & Hle & Htr);
  unfold App.run, App.handleSubmit;
  rewrite Hparse, H0, Hle, Htr, Hready;
  step_submit.

(** A new submission that passes the validation, with the store
    accepting the write: the collection gains exactly one document, with
    the parsed amount, the trimmed description, the labels the
    classification came back with and the current time; the form is
    emptied and no error is shown. *)
Theorem new_submission_stores_expense
        (env : Env) (w : World) (numericAmount : Q)
        (category classification : option string) (newId : string) :
  UI.isEditing (ui w) = false ->
  JS.parseFloat (JS.strip_non_numeric (UI.amount (ui w))) = Some numericAmount ->
  0 < numericAmount ->
  JS.trim (UI.description (ui w)) <> EmptyString ->
  UI.ready (ui w) = true ->
  classification_result env (fetches w) = PValue category classification ->
  addDoc_expense_outcome env = Some newId ->
  let w' := App.run (App.handleSubmit env) w in
  let newExpense :=
    Doc.mk numericAmount (JS.trim (UI.description (ui w)))
           category classification (Some (now env)) in
  expensesCol (store w') = expensesCol (store w) ++ [(newId, newExpense)]
  /\ historyCol (store w') = historyCol (store w)
  /\ trace w'
     = trace w
         ++ EvClassify (UI.description (ui w))
         :: backoff_schedule (failed_attempts env (fetches w) 3) 1000
         ++ [EvAddExpense newExpense]
  /\ UI.amount (ui w') = EmptyString
  /\ UI.description (ui w') = EmptyString
  /\ UI.error (ui w') = None
  /\ UI.isLoading (ui w') = false
  /\ UI.isEditing (ui w') = false.
Proof.
  intros Hnew Hparse Hpos Hdesc Hready Hres Hadd w' newExpense. subst w'.
  submit_start w numericAmount Hparse Hpos Hdesc Hready.
  rewrite Hnew, categorizeExpense_result. step_submit.
  rewrite Hres. step_submit. rewrite Hadd. step_submit.
  rewrite <- app_assoc. repeat split. exact Hnew.
Qed.

Lemma new_submission_stores_expense_witness :
  expensesCol
    (store (App.run (App.handleSubmit Scenario.env_flaky)
                    (typed "250" "cena" Scenario.world_two)))
  = expensesCol (store Scenario.world_two)
      ++ [("c"%string,
           Doc.mk 250 "cena" (Some "Comida"%string) (Some "Cafe"%string)
                  (Some 1000%Z))].
Proof.
  apply (new_submission_stores_expense
           Scenario.env_flaky (typed "250" "cena" Scenario.world_two) 250
           (Some "Comida"%string) (Some "Cafe"%string) "c");
    [reflexivity|reflexivity|reflexivity|discriminate
    |reflexivity|reflexivity|reflexivity].
Defined.

(** When the store rejects the write, a submission that passed the
    validation changes nothing in the store and loses nothing of the
    form: the two fields and the edit mode stay as they were, the
    processing error is shown and the loading flag is cleared. *)
Theorem rejected_write_keeps_form (env : Env) (w : World) (numericAmount : Q) :
  JS.parseFloat (JS.strip_non_numeric (UI.amount (ui w))) = Some numericAmount ->
  0 < numericAmount ->
  JS.trim (UI.description (ui w)) <> EmptyString ->
  UI.ready (ui w) = true ->
  addDoc_expense_outcome env = None ->
  updateDoc_ok env = false ->
  let w' := App.run (App.handleSubmit env) w in
  store w' = store w
  /\ ui w' = failed (ui w)
  /\ UI.amount (ui w') = UI.amount (ui w)
  /\ UI.description (ui w') = UI.description (ui w)
  /\ UI.isEditing (ui w') = UI.isEditing (ui w)
  /\ UI.editingExpenseId (ui w') = UI.editingExpenseId (ui w)
  /\ UI.error (ui w') = Some App.msg_process
  /\ UI.isLoading (ui w') = false.
Proof.
  intros Hparse Hpos Hdesc Hready Hadd Hupd w'.
  assert (store w' = store w /\ ui w' = failed (ui w)) as [Hs Hu].
  { subst w'. submit_start w numericAmount Hparse Hpos Hdesc Hready.
    destruct (UI.isEditing (ui w)).
    - destruct (String.eqb _ _); step_submit;
        rewrite ?categorizeExpense_result; step_submit;
        try destruct (classification_result env (fetches w));
        step_submit;
        destruct (UI.editingExpenseId (ui w)); step_submit;
        rewrite ?Hupd; cbn [andb]; step_submit; split; reflexivity.
    - rewrite categorizeExpense_result. step_submit.
      destruct (classification_result env (fetches w)); step_submit;
        rewrite ?Hadd; step_submit; split; reflexivity. }
  rewrite Hs, Hu. repeat split.
Qed.

Lemma rejected_write_keeps_form_witness :
  UI.description
    (ui (App.run (App.handleSubmit Scenario.env_store_down)
                 (typed "5" "pan" Scenario.world_empty)))
  = "pan"%string.
Proof.
  apply (rejected_write_keeps_form
           Scenario.env_store_down
           (typed "5" "pan" Scenario.world_empty) 5);
    [reflexivity|reflexivity|discriminate|reflexivity|reflexivity|reflexivity].
Defined.

(** An edit that leaves the description as it was, the store accepting
    the update: the document being edited gets the new amount and keeps
    its category, classification and timestamp; no other document
    changes, no request goes to the classification service, and the form
    leaves edit mode, emptied. *)
Theorem amount_only_edit_keeps_labels
        (env : Env) (w : World) (numericAmount : Q) (editingId : string) :
  UI.isEditing (ui w) = true ->
  UI.editingExpenseId (ui w) = Some editingId ->
  JS.trim (UI.description (ui w)) = UI.editingOriginalDescription (ui w) ->
  JS.parseFloat (JS.strip_non_numeric (UI.amount (ui w))) = Some numericAmount ->
  0 < numericAmount ->
  JS.trim (UI.description (ui w)) <> EmptyString ->
  UI.ready (ui w) = true ->
  updateDoc_ok env = true ->
  Remote.has_doc editingId (store w) = true ->
  let w' := App.run (App.handleSubmit env) w in
  expensesCol (store w')
  = map (fun p =>
           if String.eqb (fst p) editingId
           then (fst p,
                 Doc.mk numericAmount (JS.trim (UI.description (ui w)))
                        (Doc.category (snd p)) (Doc.classification (snd p))
                        (Doc.timestamp (snd p)))
           else p)
        (expensesCol (store w))
  /\ historyCol (store w') = historyCol (store w)
  /\ trace w'
     = trace w
         ++ [EvUpdateExpense
               (Some editingId)
               (Fields.mk numericAmount (JS.trim (UI.description (ui w))) None)]
  /\ fetches w' = fetches w
  /\ ui w' = UI.setIsLoading false (edit_closed (loading (ui w))).
Proof.
  intros Hedit Hid Hsame Hparse Hpos Hdesc Hready Hupd Hdoc w'. subst w'.
  submit_start w numericAmount Hparse Hpos Hdesc Hready.
  rewrite Hedit, Hid, Hsame, String.eqb_refl. step_submit.
  rewrite Hupd, Hdoc. cbn [andb]. step_submit.
  repeat split.
Qed.

Lemma amount_only_edit_keeps_labels_witness :
  expensesCol
    (store (App.run (App.handleSubmit Scenario.env_ok)
                    (typed "120" "almuerzo" Scenario.world_editing)))
  = [ ("a"%string,
       Doc.mk 120 "almuerzo" (Some "Comida"%string)
              (Some "Restaurante"%string) (Some 5%Z));
      ("b"%string, Scenario.otros) ].
Proof.
  apply (amount_only_edit_keeps_labels
           Scenario.env_ok (typed "120" "almuerzo" Scenario.world_editing)
           120 "a");
    [reflexivity|reflexivity|reflexivity|reflexivity|reflexivity
    |discriminate|reflexivity|reflexivity|reflexivity].
Defined.

(** An edit that changes the description, the store accepting the
    update: the document being edited gets the new amount, the trimmed
    new description and the labels the classification came back with,
    and keeps its timestamp; no other document changes, and the form
    leaves edit mode, emptied. *)
Theorem description_edit_replaces_labels
        (env : Env) (w : World) (numericAmount : Q) (editingId : string)
        (category classification : option string) :
  UI.isEditing (ui w) = true ->
  UI.editingExpenseId (ui w) = Some editingId ->
  JS.trim (UI.description (ui w)) <> UI.editingOriginalDescription (ui w) ->
  JS.parseFloat (JS.strip_non_numeric (UI.amount (ui w))) = Some numericAmount ->
  0 < numericAmount ->
  JS.trim (UI.description (ui w)) <> EmptyString ->
  UI.ready (ui w) = true ->
  classification_result env (fetches w) = PValue category classification ->
  updateDoc_ok env = true ->
  Remote.has_doc editingId (store w) = true ->
  let w' := App.run (App.handleSubmit env) w in
  expensesCol (store w')
  = map (fun p =>
           if String.eqb (fst p) editingId
           then (fst p,
                 Doc.mk numericAmount (JS.trim (UI.description (ui w)))
                        category classification (Doc.timestamp (snd p)))
           else p)
        (expensesCol (store w))
  /\ historyCol (store w') = historyCol (store w)
  /\ trace w'
     = trace w
         ++ EvClassify (UI.description (ui w))
         :: backoff_schedule (failed_attempts env (fetches w) 3) 1000
         ++ [EvUpdateExpense
               (Some editingId)
               (Fields.mk numericAmount (JS.trim (UI.description (ui w)))
                          (Some (category, classification)))]
  /\ ui w' = UI.setIsLoading false (edit_closed (loading (ui w))).
Proof.
  intros Hedit Hid Hdiff Hparse Hpos Hdesc Hready Hres Hupd Hdoc w'. subst w'.
  submit_start w numericAmount Hparse Hpos Hdesc Hready.
  rewrite Hedit, Hid.
  destruct (String.eqb_spec (JS.trim (UI.description (ui w)))
                            (UI.editingOriginalDescription (ui w)));
    [contradiction|].
  step_submit. rewrite categorizeExpense_result. step_submit.
  rewrite Hres. step_submit. rewrite Hupd, Hdoc. cbn [andb]. step_submit.
  rewrite <- app_assoc. repeat split.
Qed.

Lemma description_edit_replaces_labels_witness :
  expensesCol
    (store (App.run (App.handleSubmit Scenario.env_ok)
                    (typed "100" " cafe " Scenario.world_editing)))
  = [ ("a"%string,
       Doc.mk 100 "cafe" (Some "Comida"%string) (Some "Cafe"%string)
              (Some 5%Z));
      ("b"%string, Scenario.otros) ].
Proof.
  apply (description_edit_replaces_labels
           Scenario.env_ok (typed "100" " cafe " Scenario.world_editing)
           100 "a" (Some "Comida"%string) (Some "Cafe"%string));
    [reflexivity|reflexivity|discriminate|reflexivity|reflexivity
    |discriminate|reflexivity|reflexivity|reflexivity|reflexivity].
Defined.

(** While the database handle or the user id is missing, a submission
    that passes the validation does nothing but show the not-ready
    message: no request is made and the store, the form and the loading
    flag stay as they were. *)
Theorem submission_waits_for_session (env : Env) (w : World) (numericAmount : Q) :
  JS.parseFloat (JS.strip_non_numeric (UI.amount (ui w))) = Some numericAmount ->
  0 < numericAmount ->
  JS.trim (UI.description (ui w)) <> EmptyString ->
  UI.ready (ui w) = false ->
  App.run (App.handleSubmit env) w
  = mkWorld (UI.setError (Some App.msg_not_ready) (ui w))
            (store w) (trace w) (fetches w) (clock w) (in_flight w).
Proof.
  intros Hparse Hpos Hdesc Hready.
  submit_start w numericAmount Hparse Hpos Hdesc Hready.
  reflexivity.
Qed.

Lemma submission_waits_for_session_witness :
  trace (App.run (App.handleSubmit Scenario.env_ok)
                 (mkWorld (UI.mk false None [] "5" "pan" false None false
                                 false None EmptyString)
                          (mkBackend [] []) [] 0 0 []))
  = [].
Proof.
  rewrite (submission_waits_for_session
             Scenario.env_ok
             (mkWorld (UI.mk false None [] "5" "pan" false None false
                             false None EmptyString)
                      (mkBackend [] []) [] 0 0 []) 5);
    [reflexivity|reflexivity|reflexivity|discriminate|reflexivity].
Defined.

(* ===================================================================== *)
(** ** The deletion of one expense *)
(* ===================================================================== *)

Ltac step_delete :=
  cbv beta iota zeta delta
      [try_catch bind setState log throw ret Remote.deleteDoc Remote.await
       App.handleCancelEdit negb];
  cbn [ui store trace fetches clock in_flight expensesCol historyCol
       snd fst succeeds settles_at target].

Lemma advance_keeps_or_drops (t : nat) (w : World) (d : string * Doc.t) :
  In d (expensesCol (store (Remote.advance t w))) -> In d (expensesCol (store w)).
Proof.
  unfold Remote.advance. cbn [store]. intros H.
  now apply settled_survivor in H.
Qed.

Lemma advance_history (t : nat) (w : World) :
  historyCol (store (Remote.advance t w)) = historyCol (store w).
Proof. unfold Remote.advance. cbn [store]. apply settled_keeps_history. Qed.

(** Deleting an expense, the application ready, nothing else in flight
    and the store accepting: exactly the documents with that id leave
    the collection, the others stay in their order, the history is
    untouched; the form is reset when the deleted expense was the one
    being edited and left alone otherwise. *)
Theorem delete_removes_only_that_expense
        (env : Env) (expenseId : string) (w : World) :
  UI.ready (ui w) = true ->
  in_flight w = [] ->
  fst (deleteDoc_outcome env expenseId) = true ->
  let w' := App.run (App.handleDeleteExpense env expenseId) w in
  expensesCol (store w')
  = filter (fun p => negb (String.eqb (fst p) expenseId)) (expensesCol (store w))
  /\ historyCol (store w') = historyCol (store w)
  /\ trace w' = trace w ++ [EvDeleteExpense expenseId]
  /\ in_flight w' = []
  /\ ui w' = match UI.editingExpenseId (ui w) with
             | Some editingId =>
                 if String.eqb editingId expenseId
                 then edit_closed (ui w)
                 else ui w
             | None => ui w
             end.
Proof.
  intros Hready Hidle Hok w'. subst w'.
  unfold App.run, App.handleDeleteExpense. rewrite Hready. cbn [negb].
  step_delete. unfold Remote.promise_of. rewrite Hok, Hidle.
  step_delete. unfold Remote.advance.
  cbn [ui store trace fetches clock in_flight app filter settles_at].
  rewrite Nat.leb_refl.
  cbn [negb fold_left Remote.settle succeeds target Remote.remove_doc
       expensesCol historyCol].
  destruct (UI.editingExpenseId (ui w)) as [i|];
    [destruct (String.eqb i expenseId)|]; step_delete; repeat split.
Qed.

Lemma delete_removes_only_that_expense_witness :
  expensesCol
    (store (App.run (App.handleDeleteExpense Scenario.env_ok "a")
                    Scenario.world_two))
  = [("b"%string, Scenario.otros)].
Proof.
  apply (delete_removes_only_that_expense Scenario.env_ok "a" Scenario.world_two);
    reflexivity.
Defined.

(** A deletion that cannot be made, because the application is not
    ready or because the store rejects it, leaves the store and the edit
    in progress as they were and shows its own message; when the
    application is not ready no request is issued at all. *)
Theorem failed_delete_changes_nothing
        (env : Env) (expenseId : string) (w : World) :
  in_flight w = [] ->
  UI.ready (ui w) = false \/ fst (deleteDoc_outcome env expenseId) = false ->
  let w' := App.run (App.handleDeleteExpense env expenseId) w in
  store w' = store w
  /\ ui w'
     = UI.setError
         (Some (if UI.ready (ui w)
                then App.msg_delete
                else App.msg_delete_not_ready))
         (ui w)
  /\ (UI.ready (ui w) = false -> trace w' = trace w).
Proof.
  intros Hidle Hfail w'. subst w'.
  unfold App.run, App.handleDeleteExpense.
  destruct (UI.ready (ui w)) eqn:Hready; cbn [negb].
  - destruct Hfail as [Hfail|Hfail]; [discriminate|].
    step_delete. unfold Remote.promise_of. rewrite Hfail, Hidle.
    step_delete. unfold Remote.advance.
    cbn [ui store trace fetches clock in_flight app filter settles_at].
    rewrite Nat.leb_refl.
    cbn [negb fold_left Remote.settle succeeds].
    split; [now destruct (store w)|]. split; [reflexivity|discriminate].
  - step_delete. repeat split.
Qed.

Lemma failed_delete_changes_nothing_witness :
  store (App.run (App.handleDeleteExpense Scenario.env_store_down "a")
                 Scenario.world_two)
  = store Scenario.world_two.
Proof.
  apply (failed_delete_changes_nothing
           Scenario.env_store_down "a" Scenario.world_two);
    [reflexivity|right; reflexivity].
Defined.

(* ===================================================================== *)
(** ** More on the archival *)
(* ===================================================================== *)

(** The archival refuses to run while the application is not ready or
    the list of expenses is empty: nothing at all happens, not even the
    confirmation prompt.  When the user declines the prompt, the prompt
    is all that happened. *)
Theorem archival_refuses_or_asks (env : Env) (w : World) :
  let w' := App.run (App.handleResetAndArchive env) w in
  (UI.ready (ui w) = false \/ UI.expenses (ui w) = [] -> w' = w)
  /\ (UI.ready (ui w) = true ->
      UI.expenses (ui w) <> [] ->
      confirm env = false ->
      w' = mkWorld (ui w) (store w) (trace w ++ [EvConfirm]) (fetches w)
                   (clock w) (in_flight w)).
Proof.
  unfold App.run, App.handleResetAndArchive. split.
  - intros [H|H]; rewrite H; cbn [negb orb List.length Nat.eqb snd];
      [reflexivity|].
    now rewrite orb_true_r.
  - intros Hready Hne Hno.
    assert ((List.length (UI.expenses (ui w)) =? 0)%nat = false) as Hlen
        by (destruct (UI.expenses (ui w)); [contradiction|reflexivity]).
    rewrite Hready, Hlen. cbn [negb orb]. step. rewrite Hno. step.
    reflexivity.
Qed.

Lemma archival_refuses_or_asks_witness :
  App.run (App.handleResetAndArchive Scenario.env_ok) Scenario.world_empty
  = Scenario.world_empty.
Proof.
  apply (proj1 (archival_refuses_or_asks Scenario.env_ok Scenario.world_empty)).
  right. reflexivity.
Defined.

(** When the history write succeeds and the read of the collection
    fails, the archive record stays written while no delete is issued
    and every expense stays; the archival error is shown and archiving
    mode is left. *)
Theorem archival_read_failure_keeps_record
        (env : Env) (w : World) (hid : string) :
  UI.ready (ui w) = true ->
  UI.expenses (ui w) <> [] ->
  confirm env = true ->
  addDoc_history_outcome env = Some hid ->
  getDocs_ok env = false ->
  let w' := App.run (App.handleResetAndArchive env) w in
  historyCol (store w')
  = historyCol (store w) ++ [(hid, App.archiveData env (ui w))]
  /\ expensesCol (store w') = expensesCol (store w)
  /\ trace w'
     = trace w ++ [EvConfirm; EvAddHistory (App.archiveData env (ui w));
                   EvGetDocs]
  /\ in_flight w' = in_flight w
  /\ UI.error (ui w') = Some App.msg_archive
  /\ UI.isArchiving (ui w') = false.
Proof.
  intros Hready Hne Hconfirm Hhist Hget w'. subst w'.
  unfold App.run, App.handleResetAndArchive.
  assert ((List.length (UI.expenses (ui w)) =? 0)%nat = false) as Hlen
      by (destruct (UI.expenses (ui w)); [contradiction|reflexivity]).
  rewrite Hready, Hlen. cbn [negb orb].
  step. rewrite Hconfirm. step. rewrite Hhist. step. rewrite Hget. step.
  rewrite <- !app_assoc. repeat split.
Qed.

Lemma archival_read_failure_witness :
  expensesCol
    (store (App.run (App.handleResetAndArchive Scenario.env_flaky)
                    Scenario.world_two))
  = expensesCol (store Scenario.world_two)
  /\ List.length
       (historyCol
          (store (App.run (App.handleResetAndArchive Scenario.env_flaky)
                          Scenario.world_two))) = 1%nat.
Proof.
  destruct (archival_read_failure_keeps_record
              Scenario.env_flaky Scenario.world_two "h")
    as (Hh & He & _);
    [reflexivity|discriminate|reflexivity|reflexivity|reflexivity|].
  split; [exact He|]. rewrite Hh. reflexivity.
Defined.

Section SettleFacts.

Lemma settled_collection (ps : list Pending) (b : Backend) :
  expensesCol (fold_left (fun b p => Remote.settle p b) ps b)
  = filter (fun d => negb (existsb (hits d) ps)) (expensesCol b).
Proof.
  revert b. induction ps as [|p ps IH]; intros b; cbn [fold_left existsb].
  - symmetry. now apply filter_all.
  - rewrite IH. unfold Remote.settle, hits at 2.
    destruct (succeeds p); cbn [andb orb].
    + cbn [Remote.remove_doc expensesCol].
      induction (expensesCol b) as [|d l IHl]; cbn [filter]; [reflexivity|].
      rewrite String.eqb_sym.
      destruct (String.eqb (target p) (fst d)); cbn [negb orb filter].
      * exact IHl.
      * destruct (negb (existsb (hits d) ps)); [now rewrite IHl|exact IHl].
    + reflexivity.
Qed.

Lemma filter_twice {A : Type} (f g : A -> bool) (l : list A) :
  filter f (filter g l) = filter (fun x => g x && f x) l.
Proof.
  induction l as [|x l IH]; cbn [filter]; [reflexivity|].
  destruct (g x); cbn [andb filter]; [|exact IH].
  destruct (f x); now rewrite IH.
Qed.

Lemma filter_same {A : Type} (f g : A -> bool) (l : list A) :
  (forall x, In x l -> f x = g x) -> filter f l = filter g l.
Proof.
  induction l as [|x l IH]; intros H; cbn [filter]; [reflexivity|].
  rewrite (H x (or_introl eq_refl)), IH; [reflexivity|].
  intros y Hy. apply H. now right.
Qed.

(** However the requests of a batch are split between those settled by
    a tick and those settled later, what is left in the end is what
    no successful request was aimed at. *)
Lemma settled_in_two_rounds (t : nat) (ps : list Pending) (b : Backend) :
  let due := filter (fun p => settles_at p <=? t)%nat ps in
  let later := filter (fun p => negb (settles_at p <=? t)%nat) ps in
  expensesCol (fold_left (fun b p => Remote.settle p b) later
                         (fold_left (fun b p => Remote.settle p b) due b))
  = filter (fun d => negb (existsb (hits d) ps)) (expensesCol b).
Proof.
  intros due later. rewrite !settled_collection, filter_twice.
  apply filter_same. intros d _.
  rewrite <- negb_orb. f_equal. subst due later.
  induction ps as [|p ps IH]; cbn [filter existsb]; [reflexivity|].
  destruct (settles_at p <=? t)%nat; cbn [negb existsb]; rewrite <- IH;
    destruct (hits d p); cbn [orb]; try reflexivity.
  now rewrite orb_true_r.
Qed.

End SettleFacts.

Lemma hits_outcome (env : Env) (issued : nat) (docs : list (string * Doc.t))
      (d : string * Doc.t) :
  In d docs ->
  existsb (hits d) (map (fun d => Remote.promise_of env issued (fst d)) docs)
  = fst (deleteDoc_outcome env (fst d)).
Proof.
  intros Hd. destruct (fst (deleteDoc_outcome env (fst d))) eqn:E.
  - apply existsb_exists. exists (Remote.promise_of env issued (fst d)).
    split; [now apply (in_map (fun d => Remote.promise_of env issued (fst d)))|].
    unfold hits, Remote.promise_of. cbn. now rewrite E, String.eqb_refl.
  - destruct (existsb _ _) eqn:Ex; [exfalso|reflexivity].
    apply existsb_exists in Ex as (p & Hp & Hh).
    apply in_map_iff in Hp as (d' & <- & _).
    unfold hits, Remote.promise_of in Hh. cbn in Hh.
    apply andb_prop in Hh as [Hok Heq].
    apply String.eqb_eq in Heq. rewrite Heq in Hok. congruence.
Qed.

Lemma deletes_in_trace (docs : list (string * Doc.t)) :
  filter is_delete (map (fun d => EvDeleteExpense (fst d)) docs)
  = map EvDeleteExpense (map fst docs).
Proof.
  induction docs as [|d docs IH]; cbn; [reflexivity|]. now rewrite IH.
Qed.

(** Once the history write and the read of the collection have
    succeeded and every delete of the batch has settled, the collection
    holds exactly the documents whose delete was rejected, whatever the
    screen was showing; the archive record stays in the history, each
    document was asked to be deleted once and only once, and the
    archival error is shown exactly when some delete was rejected. *)
Theorem archival_settles_to_failed_deletes
        (env : Env) (w : World) (hid : string) :
  UI.ready (ui w) = true ->
  UI.expenses (ui w) <> [] ->
  confirm env = true ->
  addDoc_history_outcome env = Some hid ->
  getDocs_ok env = true ->
  in_flight w = [] ->
  let w' := Remote.quiesce (App.run (App.handleResetAndArchive env) w) in
  expensesCol (store w')
  = filter (fun d => negb (fst (deleteDoc_outcome env (fst d))))
           (expensesCol (store w))
  /\ historyCol (store w')
     = historyCol (store w) ++ [(hid, App.archiveData env (ui w))]
  /\ in_flight w' = []
  /\ filter is_delete (trace w')
     = filter is_delete (trace w)
         ++ map EvDeleteExpense (map fst (expensesCol (store w)))
  /\ (UI.error (ui w') = Some App.msg_archive
      <-> exists d, In d (expensesCol (store w))
                    /\ fst (deleteDoc_outcome env (fst d)) = false)
  /\ ((forall d, In d (expensesCol (store w)) ->
                 fst (deleteDoc_outcome env (fst d)) = true) ->
      UI.error (ui w') = None).
Proof.
  intros Hready Hne Hconfirm Hhist Hget Hidle w'. subst w'.
  rewrite (archive_run env w hid) by assumption.
  set (docs := expensesCol (store w)).
  set (ps := map (fun d => Remote.promise_of env (clock w) (fst d)) docs).
  set (T := match Remote.first_rejection ps with
            | Some t => t
            | None => Remote.last_settlement ps
            end).
  unfold Remote.quiesce, Remote.advance. rewrite Hidle.
  cbn [ui store trace fetches clock in_flight app].
  rewrite (filter_all _ (filter _ ps)), (filter_none _ (filter _ ps)).
  2:{ intros p Hp. apply last_settlement_bounds, Nat.leb_le in Hp.
      now rewrite Hp. }
  2:{ intros p Hp. now apply last_settlement_bounds, Nat.leb_le in Hp. }
  split; [|split; [|split; [reflexivity|split; [|split]]]].
  - rewrite (settled_in_two_rounds T ps). cbn [expensesCol].
    apply filter_same. intros d Hd. f_equal. now apply hits_outcome.
  - now rewrite !settled_keeps_history.
  - rewrite filter_app. cbn [filter is_delete].
    now rewrite deletes_in_trace.
  - destruct (Remote.first_rejection ps) as [t|] eqn:E.
    + split; [intros _|reflexivity].
      apply first_rejection_Some in E as ((p & Hp & Hf & _) & _).
      apply in_map_iff in Hp as (d & <- & Hd). exists d. auto.
    + split; [discriminate|].
      intros (d & Hd & Hf). exfalso.
      apply first_rejection_None in E. rewrite Forall_forall in E.
      specialize (E _ (in_map (fun d => Remote.promise_of env (clock w) (fst d))
                              _ _ Hd)).
      cbn in E. congruence.
  - intros Hall.
    assert (Remote.first_rejection ps = None) as ->; [|reflexivity].
    apply first_rejection_None, Forall_map, Forall_forall.
    intros d Hd. now apply Hall.
Qed.

Lemma archival_settles_to_failed_deletes_witness :
  expensesCol
    (store (Remote.quiesce
              (App.run (App.handleResetAndArchive Scenario.env_partial)
                       Scenario.world_stale)))
  = [("a"%string, Scenario.comida)].
Proof.
  apply (archival_settles_to_failed_deletes
           Scenario.env_partial Scenario.world_stale "h");
    [reflexivity|discriminate|reflexivity|reflexivity|reflexivity|reflexivity].
Defined.

(** The record built for the history agrees with itself: its summary is
    the breakdown on screen, with one entry per label, and its count is
    the number of expenses on screen, never less than the number of
    entries; when no expense is filed under the name of a member of
    [Object.prototype], every total of the summary is a number, the
    totals add up to the record's [totalSpent], and the summary is
    ordered by descending total. *)
Theorem archive_record_is_consistent (env : Env) (st : UI.t) :
  let r := App.archiveData env st in
  Archive.categorySummary r = Aggregation.categoryData (UI.expenses st)
  /\ NoDup (map entry_category (Archive.categorySummary r))
  /\ Archive.totalExpensesCount r = List.length (UI.expenses st)
  /\ (List.length (Archive.categorySummary r)
      <= Archive.totalExpensesCount r)%nat
  /\ (ordinary_labels (UI.expenses st) ->
      Forall (fun x => exists q, total x = JS.Num q)
             (Archive.categorySummary r)
      /\ Qsum (map (fun x => number (total x)) (Archive.categorySummary r))
         == Archive.totalSpent r
      /\ StronglySorted (fun a b => number (total b) <= number (total a))
                        (Archive.categorySummary r)).
Proof.
  intros r.
  assert (Archive.categorySummary r = Aggregation.categoryData (UI.expenses st))
    as Hsum.
  { subst r. cbn [App.archiveData Archive.categorySummary].
    rewrite <- (map_id (Aggregation.categoryData (UI.expenses st))) at 2.
    apply map_ext. now intros []. }
  rewrite Hsum. subst r.
  cbn [App.archiveData Archive.totalSpent Archive.totalExpensesCount].
  split; [reflexivity|]. split; [|split; [|split]].
  - eapply Permutation_NoDup;
      [symmetry; apply categoryData_categories|apply totals_of_NoDup].
  - reflexivity.
  - rewrite <- (length_map entry_category),
            <- (length_map Aggregation.category_of (UI.expenses st)).
    apply NoDup_incl_length.
    + eapply Permutation_NoDup;
        [symmetry; apply categoryData_categories|apply totals_of_NoDup].
    + intros k Hk.
      apply (Permutation_in _ (categoryData_categories _)) in Hk.
      apply totals_of_keys in Hk as (_ & e & He & <-).
      now apply in_map.
  - intros Hord. split; [|split].
    + apply Forall_forall. intros x Hx.
      destruct (ordinary_entry _ x Hx (ordinary_label _ x Hord Hx))
        as (q & Hq & _).
      now exists q.
    + now apply categoryData_sum.
    + now apply categoryData_sorted.
Qed.

(* ===================================================================== *)
(** ** What the handlers keep *)
(* ===================================================================== *)

Section KeepFacts.

Lemma updated_ids (i : string) (g : Doc.t -> Doc.t) (col : list (string * Doc.t)) :
  map fst (map (fun p => if String.eqb (fst p) i then (fst p, g (snd p)) else p)
               col)
  = map fst col.
Proof.
  rewrite map_map. apply map_ext. intros p.
  now destruct (String.eqb (fst p) i).
Qed.

Lemma updated_well_formed (i : string) (f : Fields.t)
      (col : list (string * Doc.t)) :
  well_formed (Fields.merge f (Doc.mk 0 EmptyString None None None)) ->
  Forall (fun p => well_formed (snd p)) col ->
  Forall (fun p => well_formed (snd p))
         (map (fun p => if String.eqb (fst p) i
                        then (fst p, Fields.merge f (snd p)) else p)
              col).
Proof.
  intros Hf Hcol. apply Forall_map.
  eapply Forall_impl; [|exact Hcol]. intros p Hp.
  destruct (String.eqb (fst p) i); [exact Hf|exact Hp].
Qed.

Lemma schedule_is_submission (k delay : nat) :
  Forall (fun ev => is_submission_event ev = true) (backoff_schedule k delay).
Proof.
  eapply Forall_impl; [|apply backoff_schedule_network].
  intros ev. now destruct ev.
Qed.

(** The events of a submission that went as far as a classification
    call, followed by at most one write. *)
Lemma classified_then (text : string) (k : nat) (last : list Event) :
  Forall (fun ev => is_submission_event ev = true) last ->
  (List.length last <= 1)%nat ->
  classify_calls last = 0%nat ->
  let evs := EvClassify text :: backoff_schedule k 1000 ++ last in
  Forall (fun ev => is_submission_event ev = true) evs
  /\ (List.length (filter is_write evs) <= 1)%nat
  /\ (classify_calls evs <= 1)%nat.
Proof.
  intros Hlast Hlen Hcl evs. subst evs. split; [|split].
  - constructor; [reflexivity|].
    apply Forall_app. split; [apply schedule_is_submission|assumption].
  - cbn [filter is_write]. rewrite filter_app.
    rewrite (writes_network _ (backoff_schedule_network k 1000)). cbn [app].
    etransitivity; [apply filter_length_le|exact Hlen].
  - change (EvClassify text :: ?l) with ([EvClassify text] ++ l).
    rewrite !classify_calls_app,
            (classify_calls_network _ (backoff_schedule_network k 1000)), Hcl.
    cbn. lia.
Qed.

Lemma delete_shrinks (env : Env) (expenseId : string) (w : World)
      (d : string * Doc.t) :
  In d (expensesCol (store (App.run (App.handleDeleteExpense env expenseId) w))) ->
  In d (expensesCol (store w)).
Proof.
  unfold App.run, App.handleDeleteExpense.
  destruct (UI.ready (ui w)); cbn [negb]; [|now cbn].
  step_delete.
  destruct (succeeds (Remote.promise_of env (clock w) expenseId));
    [destruct (UI.editingExpenseId (ui w)) as [i|];
     [destruct (String.eqb i expenseId)|]|];
    step_delete; intros H; now apply advance_keeps_or_drops in H.
Qed.

Lemma archive_shrinks (env : Env) (w : World) (d : string * Doc.t) :
  In d (expensesCol (store (App.run (App.handleResetAndArchive env) w))) ->
  In d (expensesCol (store w)).
Proof.
  unfold App.run, App.handleResetAndArchive.
  destruct (negb (UI.ready (ui w))
            || (List.length (UI.expenses (ui w)) =? 0)%nat); [now cbn|].
  step. destruct (confirm env); step; [|now cbn].
  destruct (addDoc_history_outcome env); step; [|now cbn].
  destruct (getDocs_ok env); step; [|now cbn].
  rewrite deletePromises_run. step. unfold Remote.Promise_all.
  destruct (Remote.first_rejection _); step;
    intros H; now apply advance_keeps_or_drops in H.
Qed.

End KeepFacts.

(** No handler spoils the collection: if every stored expense has a
    positive amount and a non-empty description without blanks around
    it, this is still so after a submission, after a deletion, and after
    an archival, also once its deletes have all settled. *)
Theorem handlers_keep_expenses_well_formed
        (env : Env) (w : World) (expenseId : string) :
  Forall (fun p => well_formed (snd p)) (expensesCol (store w)) ->
  Forall (fun p => well_formed (snd p))
         (expensesCol (store (App.run (App.handleSubmit env) w)))
  /\ Forall (fun p => well_formed (snd p))
            (expensesCol
               (store (App.run (App.handleDeleteExpense env expenseId) w)))
  /\ Forall (fun p => well_formed (snd p))
            (expensesCol (store (App.run (App.handleResetAndArchive env) w)))
  /\ Forall (fun p => well_formed (snd p))
            (expensesCol
               (store (Remote.quiesce
                         (App.run (App.handleResetAndArchive env) w)))).
Proof.
  intros Hwf. split; [|split; [|split]].
  2:{ apply Forall_forall. intros d Hd. apply delete_shrinks in Hd.
      rewrite Forall_forall in Hwf. now apply Hwf. }
  2:{ apply Forall_forall. intros d Hd. apply archive_shrinks in Hd.
      rewrite Forall_forall in Hwf. now apply Hwf. }
  2:{ apply Forall_forall. intros d Hd.
      apply advance_keeps_or_drops, archive_shrinks in Hd.
      rewrite Forall_forall in Hwf. now apply Hwf. }
  unfold App.run, App.handleSubmit.
  destruct (JS.parseFloat _) as [q|]; [|exact Hwf].
  destruct (Qeq_bool q 0) eqn:H0; [exact Hwf|].
  destruct (Qle_bool q 0) eqn:Hle; [exact Hwf|].
  destruct (JS.truthy (JS.trim (UI.description (ui w)))) eqn:Htr;
    [|exact Hwf].
  cbn [orb negb].
  destruct (UI.ready (ui w)); cbn [negb]; [|exact Hwf].
  assert (forall c k t,
             well_formed (Doc.mk q (JS.trim (UI.description (ui w))) c k t))
    as Hdoc.
  { intros c k t. unfold well_formed. cbn. split; [|split].
    - destruct (Qlt_le_dec 0 q) as [|Hq]; [assumption|].
      apply Qle_bool_iff in Hq. congruence.
    - intros E. rewrite E in Htr. discriminate.
    - apply trim_idempotent. }
  step_submit.
  destruct (UI.isEditing (ui w)).
  - destruct (String.eqb _ _); step_submit;
      rewrite ?categorizeExpense_result; step_submit;
      try destruct (classification_result env (fetches w));
      step_submit; try exact Hwf;
      destruct (UI.editingExpenseId (ui w)) as [i|]; step_submit;
      try exact Hwf;
      destruct (updateDoc_ok env && Remote.has_doc i (store w));
      step_submit; try exact Hwf;
      (apply updated_well_formed; [apply Hdoc|exact Hwf]).
  - rewrite categorizeExpense_result. step_submit.
    destruct (classification_result env (fetches w)); step_submit;
      [exact Hwf|].
    destruct (addDoc_expense_outcome env); step_submit; [|exact Hwf].
    apply Forall_app. split; [exact Hwf|].
    constructor; [apply Hdoc|constructor].
Qed.

Lemma handlers_keep_expenses_well_formed_witness :
  Forall (fun p => well_formed (snd p))
         (expensesCol
            (store (App.run (App.handleSubmit Scenario.env_ok)
                            (typed " 7.5x" "  pan  " Scenario.world_two)))).
Proof.
  apply (handlers_keep_expenses_well_formed
           Scenario.env_ok (typed " 7.5x" "  pan  " Scenario.world_two) "a").
  repeat (constructor; [repeat split; discriminate|]). constructor.
Defined.

(** Whatever the form holds and whatever the services answer, a
    submission makes at most one classification call and at most one
    write, which is the creation or the update of an expense: it never
    deletes, never reads the collection, never touches the history, and
    the collection keeps its documents' ids in their order, with at most
    one new id at the end. *)
Theorem submission_writes_at_most_once (env : Env) (w : World) :
  let w' := App.run (App.handleSubmit env) w in
  exists evs added,
    trace w' = trace w ++ evs
    /\ Forall (fun ev => is_submission_event ev = true) evs
    /\ (List.length (filter is_write evs) <= 1)%nat
    /\ (classify_calls evs <= 1)%nat
    /\ map fst (expensesCol (store w')) = map fst (expensesCol (store w)) ++ added
    /\ (List.length added <= 1)%nat
    /\ historyCol (store w') = historyCol (store w)
    /\ in_flight w' = in_flight w
    /\ clock w' = clock w.
Proof.
  assert (forall tr (col : list (string * Doc.t)) hist fl ck text k last added,
             tr = trace w ++ EvClassify text
                          :: backoff_schedule k 1000 ++ last ->
             Forall (fun ev => is_submission_event ev = true) last ->
             (List.length last <= 1)%nat ->
             classify_calls last = 0%nat ->
             map fst col = map fst (expensesCol (store w)) ++ added ->
             (List.length added <= 1)%nat ->
             hist = historyCol (store w) ->
             fl = in_flight w -> ck = clock w ->
             exists evs added,
               tr = trace w ++ evs
               /\ Forall (fun ev => is_submission_event ev = true) evs
               /\ (List.length (filter is_write evs) <= 1)%nat
               /\ (classify_calls evs <= 1)%nat
               /\ map fst col = map fst (expensesCol (store w)) ++ added
               /\ (List.length added <= 1)%nat
               /\ hist = historyCol (store w)
               /\ fl = in_flight w
               /\ ck = clock w) as Hclassified.
  { intros tr col hist fl ck text k last added Ht Hl Hlen Hcl Hids Hadd Hh Hi Hc.
    destruct (classified_then text k last Hl Hlen Hcl) as (Ha & Hb & Hd).
    exists (EvClassify text :: backoff_schedule k 1000 ++ last), added.
    repeat split; assumption. }
  assert (exists evs added : list _,
             trace w = trace w ++ evs
             /\ Forall (fun ev => is_submission_event ev = true) evs
             /\ (List.length (filter is_write evs) <= 1)%nat
             /\ (classify_calls evs <= 1)%nat
             /\ map fst (expensesCol (store w))
                = map fst (expensesCol (store w)) ++ added
             /\ (List.length added <= 1)%nat
             /\ historyCol (store w) = historyCol (store w)
             /\ in_flight w = in_flight w
             /\ clock w = clock w) as Hnothing.
  { exists [], []. rewrite !app_nil_r. cbn. repeat split; auto. }
  unfold App.run, App.handleSubmit.
  destruct (JS.parseFloat _) as [q|]; [|exact Hnothing].
  destruct (Qeq_bool q 0 || Qle_bool q 0
            || negb (JS.truthy (JS.trim (UI.description (ui w)))));
    [exact Hnothing|].
  destruct (UI.ready (ui w)); cbn [negb]; [|exact Hnothing].
  step_submit.
  destruct (UI.isEditing (ui w)).
  - destruct (String.eqb _ _); step_submit.
    + exists [EvUpdateExpense
                (UI.editingExpenseId (ui w))
                (Fields.mk q (JS.trim (UI.description (ui w))) None)], [].
      rewrite app_nil_r.
      destruct (UI.editingExpenseId (ui w)) as [i|]; step_submit;
        [destruct (updateDoc_ok env && Remote.has_doc i (store w));
         step_submit|];
        rewrite ?updated_ids; cbn; repeat split; auto.
    + rewrite categorizeExpense_result. step_submit.
      destruct (classification_result env (fetches w)) as [|c k]; step_submit.
      * eapply (Hclassified _ _ _ _ _ _ _ [] []);
          rewrite ?app_nil_r; auto.
      * eapply (Hclassified
                  _ _ _ _ _ _ _
                  [EvUpdateExpense
                     (UI.editingExpenseId (ui w))
                     (Fields.mk q (JS.trim (UI.description (ui w)))
                                (Some (c, k)))] []);
          destruct (UI.editingExpenseId (ui w)) as [i|]; step_submit;
          try (destruct (updateDoc_ok env && Remote.has_doc i (store w));
               step_submit);
          rewrite ?updated_ids, ?app_nil_r, <- ?app_assoc;
          cbn [app List.length]; auto; repeat constructor.
  - rewrite categorizeExpense_result. step_submit.
    destruct (classification_result env (fetches w)) as [|c k]; step_submit.
    + eapply (Hclassified _ _ _ _ _ _ _ [] []);
        rewrite ?app_nil_r; auto.
    + destruct (addDoc_expense_outcome env) as [i|]; step_submit.
      * eapply (Hclassified
                  _ _ _ _ _ _ _
                  [EvAddExpense
                     (Doc.mk q (JS.trim (UI.description (ui w))) c k
                             (Some (now env)))] [i]);
          cbn [ui store trace fetches clock in_flight expensesCol historyCol];
          rewrite ?map_app, <- ?app_assoc; cbn [app List.length map fst];
          auto; repeat constructor.
      * eapply (Hclassified
                  _ _ _ _ _ _ _
                  [EvAddExpense
                     (Doc.mk q (JS.trim (UI.description (ui w))) c k
                             (Some (now env)))] []);
          cbn [ui store trace fetches clock in_flight expensesCol historyCol];
          rewrite ?app_nil_r, <- ?app_assoc; cbn [app List.length];
          auto; repeat constructor.
Qed.

(* ===================================================================== *)
(** ** The expense service *)
(* ===================================================================== *)

(** [getExpenses] needs a user id: without one (missing or empty) it
    throws its own message whatever the store would answer; when the
    store fails it throws the fetch message; otherwise it returns
    exactly the documents whose [userId] is the one asked for, in the
    order of the collection, so that two different users never see a
    document of each other. *)
Theorem getExpenses_returns_own_documents
        (env : Service.Env) (col : Service.Collection) :
  Service.getExpenses env None col
  = Service.Thrown "User ID is required to fetch expenses."
  /\ Service.getExpenses env (Some EmptyString) col
     = Service.Thrown "User ID is required to fetch expenses."
  /\ (forall u,
         u <> EmptyString ->
         Service.getDocs_ok env = false ->
         Service.getExpenses env (Some u) col
         = Service.Thrown "Could not fetch expenses.")
  /\ (forall u,
         u <> EmptyString ->
         Service.getDocs_ok env = true ->
         exists l,
           Service.getExpenses env (Some u) col = Service.Returned l
           /\ l = filter (Service.owned_by u) col
           /\ (forall x, In x l
                         <-> In x col
                             /\ Service.userId (Service.data (snd x)) = Some u)
           /\ (forall u' l',
                  u' <> u ->
                  Service.getExpenses env (Some u') col = Service.Returned l' ->
                  forall x, In x l -> ~ In x l')).
Proof.
  assert (forall u x, Service.owned_by u x = true
                      <-> Service.userId (Service.data (snd x)) = Some u)
    as Hown.
  { intros u x. unfold Service.owned_by.
    destruct (Service.userId (Service.data (snd x))) as [u0|].
    - rewrite String.eqb_eq. split; congruence.
    - split; discriminate. }
  split; [reflexivity|]. split; [reflexivity|]. split.
  - intros u Hu Hget. unfold Service.getExpenses.
    destruct u; [contradiction|]. cbn [JS.truthy]. now rewrite Hget.
  - intros u Hu Hget. exists (filter (Service.owned_by u) col).
    split; [|split; [reflexivity|split]].
    + unfold Service.getExpenses.
      destruct u; [contradiction|]. cbn [JS.truthy]. now rewrite Hget.
    + intros x. rewrite filter_In, Hown. reflexivity.
    + intros u' l' Hne Hl' x Hx Hx'.
      unfold Service.getExpenses in Hl'.
      destruct (JS.truthy u'); [|discriminate].
      rewrite Hget in Hl'. injection Hl' as <-.
      apply filter_In in Hx as [_ Hx]. apply filter_In in Hx' as [_ Hx'].
      apply Hown in Hx. apply Hown in Hx'. congruence.
Qed.

Lemma getExpenses_returns_own_documents_witness :
  Service.getExpenses Scenario.service_ok (Some "ana"%string)
                      Scenario.shared_collection
  = Service.Returned [("e1"%string, Service.mkStored Scenario.ana_cafe 10)].
Proof.
  destruct (proj2 (proj2 (proj2 (getExpenses_returns_own_documents
                                   Scenario.service_ok
                                   Scenario.shared_collection)))
                  "ana"%string)
    as (l & Hl & -> & _); [discriminate|reflexivity|exact Hl].
Defined.

(** After an expense has been added for a user, [getExpenses] returns
    for that user what it returned before together with the new
    document, under the id [addExpense] returned and with the server's
    date, wherever the store lists it; the other users' lists are as
    before.  When the store rejects the creation, [addExpense] throws
    its own message and adds nothing. *)
Theorem addExpense_then_getExpenses
        (env : Service.Env) (expenseData : Service.ExpenseData)
        (col : Service.Collection) :
  (forall u docRef,
      Service.userId expenseData = Some u ->
      u <> EmptyString ->
      Service.addDoc_outcome env = Some docRef ->
      Service.getDocs_ok env = true ->
      fst (Service.addExpense env expenseData col) = Service.Returned docRef
      /\ (exists before after,
             Service.getExpenses env (Some u) col = Service.Returned before
             /\ Service.getExpenses env (Some u)
                                    (snd (Service.addExpense env expenseData col))
                = Service.Returned after
             /\ Permutation
                  after
                  (before
                     ++ [(docRef,
                          Service.mkStored expenseData
                                           (Service.serverTimestamp env))]))
      /\ (forall u',
             u' <> u ->
             Service.getExpenses env (Some u')
                                 (snd (Service.addExpense env expenseData col))
             = Service.getExpenses env (Some u') col))
  /\ (Service.addDoc_outcome env = None ->
      Service.addExpense env expenseData col
      = (Service.Thrown "Could not add expense.", col)).
Proof.
  split.
  - intros u docRef Hu Hne Hadd Hget.
    unfold Service.addExpense. rewrite Hadd. cbn [fst snd].
    split; [reflexivity|]. split.
    + eexists. eexists.
      unfold Service.getExpenses.
      destruct u; [contradiction|]. cbn [JS.truthy]. rewrite Hget.
      split; [reflexivity|]. split; [reflexivity|].
      rewrite filter_app. cbn [filter].
      unfold Service.owned_by at 2. cbn [snd Service.data].
      rewrite Hu, String.eqb_refl.
      rewrite <- Permutation_middle, <- filter_app, firstn_skipn.
      apply Permutation_cons_append.
    + intros u' Hne'. unfold Service.getExpenses.
      destruct (JS.truthy u'); [|reflexivity].
      destruct (Service.getDocs_ok env); [|reflexivity].
      rewrite filter_app. cbn [filter].
      unfold Service.owned_by at 2. cbn [snd Service.data]. rewrite Hu.
      destruct (String.eqb_spec u u'); [congruence|].
      now rewrite <- filter_app, firstn_skipn.
  - intros Hadd. unfold Service.addExpense. now rewrite Hadd.
Qed.

Lemma addExpense_then_getExpenses_witness :
  exists after,
    Service.getExpenses
      Scenario.service_ok (Some "ana"%string)
      (snd (Service.addExpense Scenario.service_ok Scenario.ana_cafe
                               Scenario.shared_collection))
    = Service.Returned after
    /\ Permutation
         after
         [ ("e1"%string, Service.mkStored Scenario.ana_cafe 10);
           ("n1"%string, Service.mkStored Scenario.ana_cafe 77) ].
Proof.
  destruct (proj1 (addExpense_then_getExpenses
                     Scenario.service_ok Scenario.ana_cafe
                     Scenario.shared_collection)
                  "ana"%string "n1"%string)
    as (_ & (before & after & Hb & Ha & Hp) & _);
    [reflexivity|discriminate|reflexivity|reflexivity|].
  injection Hb as <-. exists after. split; [exact Ha|exact Hp].
Defined.

(* ===================================================================== *)
(** ** Ties *)
(* ===================================================================== *)

Section StableFacts.
Context {A : Type}.
Variable cmp : A -> A -> Q.
Variable P : A -> bool.

(** Two elements picked by [P] are never swapped by the comparator. *)
Hypothesis same_class :
  forall x y, P x = true -> P y = true -> Qle_bool (cmp x y) 0 = true.

Lemma insert_filter (x : A) (l : list A) :
  filter P (JS.insert cmp x l) = filter P (x :: l).
Proof.
  induction l as [|y l IH]; [reflexivity|]. cbn [JS.insert].
  destruct (Qle_bool (cmp x y) 0) eqn:E; [reflexivity|].
  cbn [filter] in *. rewrite IH.
  destruct (P x) eqn:Px, (P y) eqn:Py; try reflexivity.
  rewrite (same_class x y Px Py) in E. discriminate.
Qed.

(** The sort is stable. *)
Lemma Array_sort_stable (l : list A) :
  filter P (JS.Array_sort cmp l) = filter P l.
Proof.
  induction l as [|x l IH]; [reflexivity|].
  cbn [JS.Array_sort fold_right]. fold (JS.Array_sort cmp l).
  rewrite insert_filter. cbn [filter]. now rewrite IH.
Qed.

End StableFacts.

Lemma filter_map_swap {A B : Type} (f : A -> B) (P : B -> bool) (l : list A) :
  filter P (map f l) = map f (filter (fun a => P (f a)) l).
Proof.
  induction l as [|a l IH]; cbn; [reflexivity|].
  destruct (P (f a)); cbn; now rewrite IH.
Qed.

(** Documents with the same date appear on screen in the order the
    snapshot lists them. *)
Theorem listener_keeps_snapshot_order_on_ties
        (env : Env) (docs : list (string * Doc.t)) (t : Z) :
  map id (filter (fun e => (date e =? t)%Z) (App.fetchedExpenses env docs))
  = map fst (filter (fun doc => (doc_date env doc =? t)%Z) docs).
Proof.
  unfold App.fetchedExpenses.
  rewrite Array_sort_stable.
  - rewrite filter_map_swap, map_map. reflexivity.
  - intros x y Hx Hy. apply Z.eqb_eq in Hx, Hy.
    apply Qle_bool_iff. rewrite Hx, Hy, Z.sub_diag. apply Qle_refl.
Qed.

Section TieFacts.
Import Aggregation.

Lemma seen_step (seen : list string) (k : string) :
  (if in_dec string_dec k seen then seen else seen ++ [k])
  = if existsb (String.eqb k) seen then seen else seen ++ [k].
Proof.
  destruct (in_dec string_dec k seen) as [Hin|Hnin];
    destruct (existsb (String.eqb k) seen) eqn:E; try reflexivity.
  - exfalso. rewrite <- not_true_iff_false in E. apply E.
    apply existsb_exists. exists k. split; [assumption|apply String.eqb_refl].
  - exfalso. apply existsb_exists in E as (k' & Hk' & Heq).
    apply String.eqb_eq in Heq. now subst.
Qed.

(** The names of [totals] are the labels other than [__proto__], in the
    order in which they are first seen. *)
Lemma keys_totals (es : list Expense) (acc : JS.Obj JS.Value) :
  keys (JS.reduce add_to_totals acc es)
  = fold_left (fun seen k => if existsb (String.eqb k) seen
                             then seen else seen ++ [k])
              (filter (fun k => negb (String.eqb k "__proto__"))
                      (map category_of es))
              (keys acc).
Proof.
  unfold JS.reduce. revert acc.
  induction es as [|e es IH]; intros acc; cbn [fold_left map filter];
    [reflexivity|].
  rewrite IH. unfold add_to_totals at 1. unfold JS.set.
  destruct (String.eqb (category_of e) "__proto__"); cbn [negb fold_left];
    [reflexivity|].
  now rewrite keys_define, seen_step.
Qed.

Lemma keys_first_seen (es : list Expense) :
  keys (totals_of es)
  = first_seen (filter (fun k => negb (String.eqb k "__proto__"))
                       (map category_of es)).
Proof. unfold totals_of, first_seen. now rewrite keys_totals. Qed.

Lemma ordinary_labels_kept (es : list Expense) :
  ordinary_labels es ->
  filter (fun k => negb (String.eqb k "__proto__")) (map category_of es)
  = map category_of es.
Proof.
  intros Hes. apply filter_all. intros k Hk.
  apply in_map_iff in Hk as (e & <- & He).
  unfold ordinary_labels in Hes. rewrite Forall_forall in Hes.
  specialize (Hes e He).
  destruct (String.eqb_spec (category_of e) "__proto__") as [E|_];
    [rewrite E in Hes; discriminate|reflexivity].
Qed.

Lemma Object_keys_plain {V : Type} (o : JS.Obj V) :
  Forall (fun k => JS.is_array_index k = false) (keys o) ->
  JS.Object_keys o = keys o.
Proof.
  intros H. unfold JS.Object_keys. fold (keys o).
  rewrite (filter_none JS.is_array_index), (filter_all _ (keys o)).
  - reflexivity.
  - intros k Hk. rewrite Forall_forall in H. now rewrite (H k Hk).
  - intros k Hk. rewrite Forall_forall in H. now apply H.
Qed.

Lemma Qeq_bool_same (x y q : Q) : x == y -> Qeq_bool x q = Qeq_bool y q.
Proof.
  intros H. destruct (Qeq_bool y q) eqn:E.
  - apply Qeq_bool_iff. apply Qeq_bool_iff in E. now rewrite H.
  - destruct (Qeq_bool x q) eqn:E'; [|reflexivity].
    apply Qeq_bool_iff in E'. rewrite H in E'.
    apply Qeq_bool_iff in E'. congruence.
Qed.

End TieFacts.

(** Among the entries of [categoryData] with one and the same total,
    the labels come in the order in which the input first mentions
    them, as long as no label is the decimal form of an array index or
    the name of a member of [Object.prototype]. *)
Theorem ties_in_order_of_first_appearance (expenses : list Expense) (q : Q) :
  Forall (fun e => JS.is_array_index (Aggregation.category_of e) = false)
         expenses ->
  ordinary_labels expenses ->
  map entry_category
      (filter (total_is q) (Aggregation.categoryData expenses))
  = filter (fun k => Qeq_bool (group_total k expenses) q)
           (first_seen (map Aggregation.category_of expenses)).
Proof.
  intros Hplain Hord.
  unfold Aggregation.categoryData, Aggregation.useMemo. cbn [snd].
  rewrite Array_sort_stable.
  2:{ intros x y Hx Hy. unfold total_is in Hx, Hy.
      unfold Aggregation.by_total_desc.
      destruct (total x) as [| |vx| |]; try discriminate.
      destruct (total y) as [| |vy| |]; try discriminate.
      apply Qeq_bool_iff in Hx, Hy.
      apply Qle_bool_iff. cbn. lra. }
  unfold Aggregation.data_of.
  rewrite Object_keys_plain.
  2:{ apply Forall_forall. intros k Hk.
      apply totals_of_keys in Hk as (_ & e & He & <-).
      rewrite Forall_forall in Hplain. now apply Hplain. }
  rewrite filter_map_swap, map_map. cbn [entry_category].
  rewrite map_id. unfold total_is. cbn [total].
  rewrite <- (ordinary_labels_kept expenses Hord), <- keys_first_seen.
  apply filter_same. intros k Hk.
  assert (JS.inherited k = false) as Hin.
  { apply totals_of_keys in Hk as (_ & e & He & <-).
    unfold ordinary_labels in Hord. rewrite Forall_forall in Hord.
    now apply Hord. }
  destruct (get_totals_ordinary expenses k Hin Hk) as (v & -> & Hv).
  now apply Qeq_bool_same.
Qed.

Lemma ties_in_order_of_first_appearance_witness :
  map entry_category
      (filter (total_is 50)
              (Aggregation.categoryData
                 [ mkExpense "1" 50 "taxi" (Some "Transporte"%string) None 1;
                   mkExpense "2" 50 "pan" (Some "Comida"%string) None 2;
                   mkExpense "3" 70 "luz" (Some "Servicios"%string) None 3 ]))
  = [ "Transporte"%string; "Comida"%string ].
Proof.
  rewrite (ties_in_order_of_first_appearance
             [ mkExpense "1" 50 "taxi" (Some "Transporte"%string) None 1;
               mkExpense "2" 50 "pan" (Some "Comida"%string) None 2;
               mkExpense "3" 70 "luz" (Some "Servicios"%string) None 3 ] 50).
  - reflexivity.
  - repeat (constructor; [reflexivity|]). constructor.
  - repeat (constructor; [reflexivity|]). constructor.
Defined.

(* ===================================================================== *)
(** ** From the store to the screen *)
(* ===================================================================== *)

Lemma string_or_twice (c : option string) (d : string) :
  d <> EmptyString ->
  JS.string_or (Some (JS.string_or c d)) d = JS.string_or c d.
Proof.
  intros Hd. unfold JS.string_or.
  destruct c as [[|a s]|]; cbn; try reflexivity;
    destruct d; try contradiction; reflexivity.
Qed.

Lemma string_or_nonempty (c : option string) (d : string) :
  d <> EmptyString -> JS.string_or c d <> EmptyString.
Proof.
  intros Hd. unfold JS.string_or.
  destruct c as [[|a s]|]; cbn; try assumption. discriminate.
Qed.

Lemma fetchedExpenses_group (env : Env) (docs : list (string * Doc.t))
      (label : string) :
  group_total label (App.fetchedExpenses env docs)
  == Qsum (map (fun doc => Doc.amount (snd doc))
               (filter (fun doc => String.eqb (doc_label doc) label) docs)).
Proof.
  unfold App.fetchedExpenses.
  rewrite (group_total_perm _ _ _ (Array_sort_perm _ _)).
  unfold group_total.
  change (fold_right Qplus 0) with Qsum.
  rewrite filter_map_swap, map_map. cbn [amount].
  erewrite filter_same; [reflexivity|].
  intros doc _. cbn beta. unfold Aggregation.category_of. cbn [category].
  unfold doc_label. rewrite string_or_twice; [reflexivity|discriminate].
Qed.

(** What the screen shows is what the store holds: [totalSpent] is the
    sum of the amounts of the stored documents, and every entry of the
    breakdown carries a non-empty label under which a document is
    stored, a document without category, or with an empty one, counting
    under "No Categorizado"; unless the label names a member of
    [Object.prototype], the entry's total is the sum of the amounts of
    the documents stored under the label. *)
Theorem screen_totals_are_stored_amounts
        (env : Env) (docs : list (string * Doc.t)) :
  Aggregation.totalSpent (App.fetchedExpenses env docs)
  == Qsum (map (fun doc => Doc.amount (snd doc)) docs)
  /\ (forall x,
         In x (Aggregation.categoryData (App.fetchedExpenses env docs)) ->
         entry_category x <> EmptyString
         /\ (exists doc, In doc docs /\ doc_label doc = entry_category x)
         /\ (JS.inherited (entry_category x) = false ->
             exists q,
               total x = JS.Num q
               /\ q == Qsum (map (fun doc => Doc.amount (snd doc))
                                 (filter (fun doc =>
                                            String.eqb (doc_label doc)
                                                       (entry_category x))
                                         docs)))).
Proof.
  split.
  - rewrite totalSpent_sum. apply Qsum_perm, fetchedExpenses_perm.
  - intros x Hx. destruct (entry_shape _ _ Hx) as (Hk & _ & _).
    apply totals_of_keys in Hk as (_ & e & He & Hl).
    assert (exists doc, In doc docs /\ doc_label doc = entry_category x)
      as (doc & Hdoc & Hlabel).
    { unfold App.fetchedExpenses in He.
      apply (Permutation_in _ (Array_sort_perm _ _)) in He.
      apply in_map_iff in He as (doc & <- & Hdoc). exists doc.
      split; [assumption|]. rewrite <- Hl.
      unfold Aggregation.category_of, doc_label. cbn [category].
      rewrite string_or_twice; [reflexivity|discriminate]. }
    split; [|split].
    + rewrite <- Hlabel. apply string_or_nonempty. discriminate.
    + exists doc. auto.
    + intros Hin. destruct (ordinary_entry _ _ Hx Hin) as (q & Hq & Hg).
      exists q. split; [exact Hq|].
      now rewrite Hg, fetchedExpenses_group.
Qed.

Lemma screen_totals_are_stored_amounts_witness :
  Aggregation.totalSpent
    (App.fetchedExpenses Scenario.env_ok (expensesCol Scenario.two_docs))
  == 150
  /\ exists q,
      JS.Num 100 = JS.Num q
      /\ q == Qsum (map (fun doc => Doc.amount (snd doc))
                        (filter (fun doc => String.eqb (doc_label doc) "Comida")
                                (expensesCol Scenario.two_docs))).
Proof.
  pose proof (screen_totals_are_stored_amounts
                Scenario.env_ok (expensesCol Scenario.two_docs)) as (HT & H).
  split; [exact HT|].
  destruct (H (mkEntry "Comida" (JS.Num 100) (Some (10000 # 150))))
    as (_ & _ & Hq); [now left|].
  exact (Hq eq_refl).
Defined.

(** After a new submission that the store accepted, the total the
    screen shows for the new collection is the total it showed for the
    old one plus the submitted amount. *)
Theorem total_grows_by_submitted_amount
        (env : Env) (w : World) (numericAmount : Q)
        (category classification : option string) (newId : string) :
  UI.isEditing (ui w) = false ->
  JS.parseFloat (JS.strip_non_numeric (UI.amount (ui w))) = Some numericAmount ->
  0 < numericAmount ->
  JS.trim (UI.description (ui w)) <> EmptyString ->
  UI.ready (ui w) = true ->
  classification_result env (fetches w) = PValue category classification ->
  addDoc_expense_outcome env = Some newId ->
  let w' := App.run (App.handleSubmit env) w in
  Aggregation.totalSpent (App.fetchedExpenses env (expensesCol (store w')))
  == Aggregation.totalSpent (App.fetchedExpenses env (expensesCol (store w)))
     + numericAmount.
Proof.
  intros Hnew Hparse Hpos Hdesc Hready Hres Hadd w'.
  assert (expensesCol (store w')
          = expensesCol (store w)
              ++ [(newId,
                   Doc.mk numericAmount (JS.trim (UI.description (ui w)))
                          category classification (Some (now env)))]) as ->.
  { subst w'. submit_start w numericAmount Hparse Hpos Hdesc Hready.
    rewrite Hnew, categorizeExpense_result. step_submit.
    rewrite Hres. step_submit. rewrite Hadd. step_submit. reflexivity. }
  rewrite !totalSpent_sum.
  rewrite !(Qsum_perm _ _ (fetchedExpenses_perm env _)).
  rewrite map_app, Qsum_app. cbn. ring.
Qed.

Lemma total_grows_by_submitted_amount_witness :
  Aggregation.totalSpent
    (App.fetchedExpenses
       Scenario.env_ok
       (expensesCol
          (store (App.run (App.handleSubmit Scenario.env_ok)
                          (typed "250" "cena" Scenario.world_two)))))
  == Aggregation.totalSpent
       (App.fetchedExpenses Scenario.env_ok
                            (expensesCol (store Scenario.world_two)))
     + 250.
Proof.
  apply (total_grows_by_submitted_amount
           Scenario.env_ok (typed "250" "cena" Scenario.world_two) 250
           (Some "Comida"%string) (Some "Cafe"%string) "c");
    [reflexivity|reflexivity|reflexivity|discriminate
    |reflexivity|reflexivity|reflexivity].
Defined.

Lemma null_payload_aborts_submission_witness :
  store (App.run (App.handleSubmit Scenario.env_null)
                 (typed "5" "pan" Scenario.world_two))
  = store Scenario.world_two.
Proof.
  apply (null_payload_aborts_submission
           Scenario.env_null (typed "5" "pan" Scenario.world_two) 5 "null");
    [reflexivity|reflexivity|reflexivity|discriminate
    |reflexivity|reflexivity|reflexivity|reflexivity].
Defined.
